(** * libdenavit: effective length factor and uniaxial material driver

    A shallow embedding of [libdenavit/effective_length_factor.py] and
    [libdenavit/OpenSees/uniaxial_material_analysis.py].

    Python floats are IEEE binary64 values: they are modelled by Rocq's
    primitive floats, whose operations are the same binary64 operations.
    The calls that leave the repository ([math.tan], the float power,
    [scipy.optimize.brentq], the OpenSees engine, matplotlib) are events of a
    small free monad: a program is the tree of the calls it makes, and an
    interpreter supplies the answers. *)

From Stdlib Require Import ZArith List String Bool Lia.
From Stdlib Require Import Floats.
Import ListNotations.

Set Warnings "-inexact-float".

Declare Scope res_scope.
Declare Scope prog_scope.
Delimit Scope res_scope with res.
Delimit Scope prog_scope with prog.

(** ** Python exceptions and fallible values *)

(** A piece of a formatted message: literal text, or the [repr] of a string
    ([{x!r}] in an f-string). *)
Inductive msg_part : Type :=
| Text (s : string)
| Repr (s : string).

Inductive exn : Type :=
| ValueError (msg : list msg_part)
| TypeError
| ZeroDivisionError
| IndexError
| OverflowError
| RuntimeError
| Exception (msg : list msg_part).

Inductive result (A : Type) : Type :=
| Ok (a : A)
| Raise (e : exn).
Arguments Ok {A} a.
Arguments Raise {A} e.

Definition rbind {A B : Type} (m : result A) (k : A -> result B) : result B :=
  match m with
  | Ok a => k a
  | Raise e => Raise e
  end.

Notation "x <- m ;; k" := (rbind m (fun x => k))
  (at level 61, m at next level, right associativity) : res_scope.

(** ** Programs: trees of external calls *)

Inductive prog (E : Type -> Type) (A : Type) : Type :=
| Ret (a : A)
| Throw (e : exn)
| Vis (X : Type) (ev : E X) (k : X -> prog E A).
Arguments Ret {E A} a.
Arguments Throw {E A} e.
Arguments Vis {E A X} ev k.

Fixpoint bind {E : Type -> Type} {A B : Type}
    (m : prog E A) (f : A -> prog E B) : prog E B :=
  match m with
  | Ret a => f a
  | Throw e => Throw e
  | Vis ev k => Vis ev (fun x => bind (k x) f)
  end.

Definition call {E : Type -> Type} {X : Type} (ev : E X) : prog E X :=
  Vis ev Ret.

Notation "x <- m ;; k" := (bind m (fun x => k))
  (at level 61, m at next level, right associativity) : prog_scope.
Notation "m ;;; k" := (bind m (fun _ => k))
  (at level 61, right associativity) : prog_scope.

(** An interpreter answers every call with a value or an exception and may
    keep a state of its own (the engine's model, the figure being drawn). *)
Definition handler (E : Type -> Type) (S : Type) : Type :=
  forall X : Type, E X -> S -> result (X * S).

Fixpoint run {E : Type -> Type} {S A : Type}
    (h : handler E S) (p : prog E A) (s : S) : result (A * S) :=
  match p with
  | Ret a => Ok (a, s)
  | Throw e => Raise e
  | Vis ev k =>
      match h _ ev s with
      | Ok (x, s') => run h (k x) s'
      | Raise e => Raise e
      end
  end.

(** [every_return P p]: whatever the external calls answer, a value the
    program returns satisfies [P]. *)
Fixpoint every_return {E : Type -> Type} {A : Type}
    (P : A -> Prop) (p : prog E A) : Prop :=
  match p with
  | Ret a => P a
  | Throw _ => True
  | Vis ev k => forall x, every_return P (k x)
  end.

(** [calls_nothing p]: the program finishes without any external call. *)
Definition calls_nothing {E : Type -> Type} {A : Type} (p : prog E A) : bool :=
  match p with
  | Vis _ _ => false
  | _ => true
  end.

(** A monitor keeps a ghost value up to date with every call and its
    answer: a journal of what a run has done so far. *)
Definition monitor (E : Type -> Type) (G : Type) : Type :=
  forall X : Type, E X -> X -> G -> G.

(** [h] run under the monitor [m]. *)
Definition monitored {E : Type -> Type} {S G : Type}
    (m : monitor E G) (h : handler E S) : handler E (S * G) :=
  fun X ev sg =>
    match h X ev (fst sg) with
    | Ok (x, s') => Ok (x, (s', m X ev x (snd sg)))
    | Raise e => Raise e
    end.

(** [every_path m P g p]: whatever the external calls answer, when [p]
    returns [a] from the ghost value [g], the ghost value [g'] reached
    satisfies [P g' a]. *)
Fixpoint every_path {E : Type -> Type} {G A : Type} (m : monitor E G)
    (P : G -> A -> Prop) (g : G) (p : prog E A) : Prop :=
  match p with
  | Ret a => P g a
  | Throw _ => True
  | Vis ev k => forall x, every_path m P (m _ ev x g) (k x)
  end.

(** ** Python float arithmetic *)

Module PyFloat.

Open Scope float_scope.

(** [math.inf] and [math.pi]. *)
Definition inf : float := infinity.
Definition pi : float := 3.141592653589793.

(** [x / y] on floats raises on a zero divisor instead of returning an
    infinity or a NaN. *)
Definition truediv (x y : float) : result float :=
  if y =? 0 then Raise ZeroDivisionError else Ok (x / y).

(** [math.nextafter x y]: the next double after [x] in the direction
    of [y]. *)
Definition nextafter (x y : float) : float :=
  if is_nan x || is_nan y then nan
  else if x =? y then y
  else if x <? y then next_up x
  else next_down x.

End PyFloat.

(** ** effective_length_factor.py *)

Module EffectiveLength.

Import PyFloat.
Open Scope float_scope.

(** The four module-level nomogram functions, as the function objects that
    are handed to the root finder. *)
Inductive nomogram_fcn : Type :=
| fn_sidesway_inhibited
| fn_sidesway_inhibited_one_zero
| fn_sidesway_uninhibited
| fn_sidesway_uninhibited_one_zero.

(** [brentq(f, a, b, args=...)]: the only external call of
    [effective_length_factor]. A scalar [args] is the one-element tuple. *)
Inductive solverE : Type -> Type :=
| Brentq (f : nomogram_fcn) (a b : float) (args : list float) : solverE float.

Definition brentq (f : nomogram_fcn) (bracket : float * float)
    (args : list float) : prog solverE float :=
  call (Brentq f (fst bracket) (snd bracket) args).

(** The names bound by the first [if] of [effective_length_factor]. *)
Record sidesway_case : Type := {
  case_inf : float;
  case_0_inf : float;
  case_0 : float;
  bracket : float * float;
  fcn_with_one_zero : nomogram_fcn;
  fcn : nomogram_fcn
}.

Definition inhibited_case : sidesway_case := {|
  case_inf := 1.0;
  case_0_inf := 0.7;
  case_0 := 0.5;
  bracket := (0.5, nextafter 1.0 (- inf));
  fcn_with_one_zero := fn_sidesway_inhibited_one_zero;
  fcn := fn_sidesway_inhibited
|}.

Definition uninhibited_case : sidesway_case := {|
  case_inf := inf;
  case_0_inf := 2.0;
  case_0 := 1.0;
  bracket := (1.0, 1e10);
  fcn_with_one_zero := fn_sidesway_uninhibited_one_zero;
  fcn := fn_sidesway_uninhibited
|}.

Definition select_case (sidesway : string) : prog solverE sidesway_case :=
  if String.eqb sidesway "inhibited" then Ret inhibited_case
  else if String.eqb sidesway "uninhibited" then Ret uninhibited_case
  else Throw (ValueError [Text "Unrecognized sidesway value "; Repr sidesway]).

Definition effective_length_factor (sidesway : string) (GA GB : float)
    : prog solverE float :=
  (c <- select_case sidesway ;;
   (* Check basic cases for a quick return *)
   if (GA =? inf) && (GB =? inf) then Ret (case_inf c)
   else if ((GA =? inf) && (GB =? 0)) || ((GA =? 0) && (GB =? inf))
   then Ret (case_0_inf c)
   else if (GA =? 0) && (GB =? 0) then Ret (case_0 c)
   else
     (* Change infinity to large value to avoid trouble in solver *)
     let GA := if GA =? inf then 1e10 else GA in
     let GB := if GB =? inf then 1e10 else GB in
     (* Solve for the effective length factor *)
     K <- (if GA =? 0 then brentq (fcn_with_one_zero c) (bracket c) [GB]
           else if GB =? 0 then brentq (fcn_with_one_zero c) (bracket c) [GA]
           else brentq (fcn c) (bracket c) [GA; GB]) ;;
     Ret K)%prog.

Definition sidesway_uninhibited_effective_length_factor (GA GB : float)
    : prog solverE float :=
  effective_length_factor "uninhibited" GA GB.

Definition sidesway_inhibited_effective_length_factor (GA GB : float)
    : prog solverE float :=
  effective_length_factor "inhibited" GA GB.

(** *** The nomogram equations

    [math.tan] and the float power [x ** y] are library calls: they are
    parameters here, free to raise ([math.tan] does on an infinity, the
    power does on overflow). *)
Section Nomogram.

Variable tan : float -> result float.
Variable pow : float -> float -> result float.

Definition _sidesway_uninhibited (K GA GB : float) : result float :=
  (pK <- truediv pi K ;;
   p2 <- pow pK 2 ;;
   lhs <- truediv (GA * GB * p2 - 36) (6 * (GA + GB)) ;;
   t <- tan pK ;;
   q <- truediv pK t ;;
   Ok (lhs - q))%res.

Definition _sidesway_uninhibited_one_zero (K G : float) : result float :=
  (pK <- truediv pi K ;;
   lhs <- truediv (-6) G ;;
   t <- tan pK ;;
   q <- truediv pK t ;;
   Ok (lhs - q))%res.

Definition _sidesway_inhibited (K GA GB : float) : result float :=
  (pK <- truediv pi K ;;
   p2 <- pow pK 2 ;;
   t <- tan pK ;;
   q <- truediv pK t ;;
   t2 <- tan (0.5 * pK) ;;
   r <- truediv (2 * t2) pK ;;
   Ok (0.25 * GA * GB * p2 + 0.5 * (GA + GB) * (1 - q) + r - 1))%res.

Definition _sidesway_inhibited_one_zero (K G : float) : result float :=
  (pK <- truediv pi K ;;
   t <- tan pK ;;
   q <- truediv pK t ;;
   t2 <- tan (0.5 * pK) ;;
   r <- truediv (2 * t2) pK ;;
   Ok (0.5 * G * (1 - q) + r - 1))%res.

(** [f] applied to [x] followed by the unpacked [args], as the root
    finder evaluates its objective. *)
Definition call_fcn (f : nomogram_fcn) (x : float) (args : list float)
    : result float :=
  match f, args with
  | fn_sidesway_inhibited, [GA; GB] => _sidesway_inhibited x GA GB
  | fn_sidesway_inhibited_one_zero, [G] => _sidesway_inhibited_one_zero x G
  | fn_sidesway_uninhibited, [GA; GB] => _sidesway_uninhibited x GA GB
  | fn_sidesway_uninhibited_one_zero, [G] =>
      _sidesway_uninhibited_one_zero x G
  | _, _ => Raise TypeError
  end.

(** A root finder sees its objective only through the values it takes:
    [root_finder g a b] stands for [brentq] run on the one-variable
    function [g] over the bracket [(a, b)]. *)
Variable root_finder : (float -> result float) -> float -> float -> result float.

Definition brentq_handler : handler solverE unit :=
  fun X ev s =>
    match ev in solverE T return result (T * unit) with
    | Brentq f a b args =>
        (K <- root_finder (fun x => call_fcn f x args) a b ;; Ok (K, s))%res
    end.

End Nomogram.

(** *** The specification's reading

    The two conditions of the data model, the degenerate-case table, the
    bracket and the general case, written from the specification and
    compared with the code below. *)

Inductive SidesCondition : Type := Inhibited | Uninhibited.

Definition condition_name (c : SidesCondition) : string :=
  match c with
  | Inhibited => "inhibited"
  | Uninhibited => "uninhibited"
  end.

(** A degenerate end: infinite or zero stiffness ratio. *)
Inductive degenerate_G : Type := G_inf | G_zero.

Definition degenerate_value (g : degenerate_G) : float :=
  match g with
  | G_inf => inf
  | G_zero => 0
  end.

(** The degenerate-case table of the specification, row by row. *)
Definition degenerate_table (c : SidesCondition) (a b : degenerate_G) : float :=
  match c, a, b with
  | Inhibited, G_inf, G_inf => 1.0
  | Inhibited, G_inf, G_zero => 0.7
  | Inhibited, G_zero, G_inf => 0.7
  | Inhibited, G_zero, G_zero => 0.5
  | Uninhibited, G_inf, G_inf => inf
  | Uninhibited, G_inf, G_zero => 2.0
  | Uninhibited, G_zero, G_inf => 2.0
  | Uninhibited, G_zero, G_zero => 1.0
  end.

(** The inputs answered by the table. *)
Definition degenerate (GA GB : float) : bool :=
  ((GA =? inf) && (GB =? inf))
  || ((GA =? inf) && (GB =? 0))
  || ((GA =? 0) && (GB =? inf))
  || ((GA =? 0) && (GB =? 0)).

(** The value that replaces an infinite stiffness ratio. *)
Definition surrogate (G : float) : float :=
  if G =? inf then 1e10 else G.

(** The names bound for each of the two recognized conditions. *)
Definition case_of (c : SidesCondition) : sidesway_case :=
  match c with
  | Inhibited => inhibited_case
  | Uninhibited => uninhibited_case
  end.

(** The root-finder call a program starts with, if it starts with one: the
    function object, the bracket and the extra arguments. *)
Definition first_call {A : Type} (p : prog solverE A)
    : option (nomogram_fcn * (float * float) * list float) :=
  match p with
  | Vis ev _ =>
      match ev with
      | Brentq f a b args => Some (f, (a, b), args)
      end
  | _ => None
  end.

(** The same program with the parameters of its root-finder call in the
    reverse order. *)
Definition with_args_reversed {A : Type} (p : prog solverE A) : prog solverE A :=
  match p with
  | Vis ev k =>
      match ev in solverE T return (T -> prog solverE A) -> prog solverE A with
      | Brentq f a b args => fun k' => Vis (Brentq f a b (rev args)) k'
      end k
  | _ => p
  end.

(** The largest double strictly below one, [1 - 2^-53]. *)
Definition just_below_one : float := 0x1.fffffffffffffp-1.

(** [x] is the largest double strictly below [bound]. *)
Definition is_largest_below (bound x : float) : Prop :=
  (x <? bound) = true /\ forall y : float, (y <? bound) = true -> (y <=? x) = true.

(** The root-finding bracket of the specification. *)
Definition spec_bracket (c : SidesCondition) : float * float :=
  match c with
  | Inhibited => (0.5, just_below_one)
  | Uninhibited => (1.0, 1e10)
  end.

(** The single-variable reduced equation and the full two-variable equation
    of each condition. *)
Definition reduced_equation (c : SidesCondition) : nomogram_fcn :=
  match c with
  | Inhibited => fn_sidesway_inhibited_one_zero
  | Uninhibited => fn_sidesway_uninhibited_one_zero
  end.

Definition full_equation (c : SidesCondition) : nomogram_fcn :=
  match c with
  | Inhibited => fn_sidesway_inhibited
  | Uninhibited => fn_sidesway_uninhibited
  end.

(** The general case as the specification words it: infinities replaced,
    then the reduced equation with the non-zero ratio when exactly one ratio
    is zero, the full equation with both ratios otherwise. *)
Definition general_case (c : SidesCondition) (GA GB : float)
    : prog solverE float :=
  let GA' := surrogate GA in
  let GB' := surrogate GB in
  if xorb (GA' =? 0) (GB' =? 0)
  then brentq (reduced_equation c) (spec_bracket c)
         [if GA' =? 0 then GB' else GA']
  else brentq (full_equation c) (spec_bracket c) [GA'; GB'].

(** The range of the effective length factor: (0, 1] with sidesway
    inhibited, [1, inf) with sidesway uninhibited. *)
Definition in_range (c : SidesCondition) (K : float) : bool :=
  match c with
  | Inhibited => (0 <? K) && (K <=? 1)
  | Uninhibited => (1 <=? K) && (K <? inf)
  end.

(** The contract of a bracketing root finder: what it returns lies in the
    bracket it was given. *)
Definition keeps_bracket {S : Type} (h : handler solverE S) : Prop :=
  forall f a b args s K s',
    h _ (Brentq f a b args) s = Ok (K, s') ->
    (a <=? K) = true /\ (K <=? b) = true.

(** A stand-in root finder: it answers the lower end of a bracket that is
    in order, and refuses any other bracket. *)
Definition lower_end_solver : handler solverE unit :=
  fun X ev s =>
    match ev in solverE T return result (T * unit) with
    | Brentq f a b args =>
        if a <=? b then Ok (a, s)
        else Raise (ValueError [Text "f(a) and f(b) must have different signs"])
    end.

(** Stand-ins for the external functions: a tangent and a power that always
    answer, and a root finder that checks the signs of its objective at the
    two ends of the bracket and answers the middle. *)
Definition sample_tan (x : float) : result float := Ok x.

Definition sample_pow (x y : float) : result float := Ok (x * x).

Definition sample_root_finder (g : float -> result float) (a b : float)
    : result float :=
  (fa <- g a ;;
   fb <- g b ;;
   if fa * fb <? 0 then Ok ((a + b) / 2)
   else Raise (ValueError [Text "f(a) and f(b) must have different signs"]))%res.

End EffectiveLength.

(** ** OpenSees/uniaxial_material_analysis.py *)

Module Uniaxial.

Import PyFloat.
Open Scope float_scope.

(** The Python values that are passed around as arguments. *)
Inductive pyval : Type :=
| VNone
| VInt (z : Z)
| VFloat (f : float)
| VStr (s : string)
| VList (l : list float).

(** Calls into the OpenSees engine (a command of [ops] with its argument
    list, and the two queries whose float answer is recorded) and into
    matplotlib. *)
Inductive engineE : Type -> Type :=
| Ops (command : string) (args : list pyval) : engineE unit
| OpsGetTime : engineE float
| OpsNodeDisp (node dof : Z) : engineE float
| Plt (command : string) (args : list pyval) : engineE unit.

Definition ops (command : string) (args : list pyval) : prog engineE unit :=
  call (Ops command args).

Definition plt (command : string) (args : list pyval) : prog engineE unit :=
  call (Plt command args).

Definition lift {A : Type} (r : result A) : prog engineE A :=
  match r with
  | Ok a => Ret a
  | Raise e => Throw e
  end.

(** [l[i]] for an index that is not negative. *)
Definition getitem (l : list float) (i : nat) : result float :=
  match nth_error l i with
  | Some x => Ok x
  | None => Raise IndexError
  end.

(** [float(z)] for an int: the nearest double, or [OverflowError]. *)
Definition float_of_int (z : Z) : result float :=
  let f := SF2Prim (binary_normalize prec emax z 0 false) in
  if is_infinity f then Raise OverflowError else Ok f.

(** [x / d] for a float [x]. *)
Definition float_truediv (x : float) (d : pyval) : result float :=
  match d with
  | VFloat y => truediv x y
  | VInt z => (y <- float_of_int z ;; truediv x y)%res
  | _ => Raise TypeError
  end.

(** [math.ceil] of a float: an int, exactly. *)
Definition ceil (x : float) : result Z :=
  match Prim2SF x with
  | S754_zero _ => Ok 0%Z
  | S754_infinity _ => Raise OverflowError
  | S754_nan => Raise (ValueError [Text "cannot convert float NaN to integer"])
  | S754_finite s m e =>
      Ok (if (0 <=? e)%Z then cond_Zopp s (Z.pos m * 2 ^ e)
          else if s then (- (Z.pos m / 2 ^ (- e)))%Z
          else (- (Z.neg m / 2 ^ (- e)))%Z)
  end.

(** [range(n)]: the indices, or [TypeError] when [n] is not an int. *)
Definition range (n : pyval) : result (list nat) :=
  match n with
  | VInt z => Ok (seq 0 (Z.to_nat z))
  | _ => Raise TypeError
  end.

(** A [for] loop over a list, threading the variables it updates. *)
Fixpoint for_each {A S : Type} (l : list A) (body : A -> S -> prog engineE S)
    (s : S) : prog engineE S :=
  match l with
  | [] => Ret s
  | a :: l' => (s' <- body a s ;; for_each l' body s')%prog
  end.

(** The recorded response: the lists [strain] and [stress]. *)
Definition record : Type := (list float * list float)%type.

(** One recorded point: [stress] gets the time, [strain] the displacement,
    both negated when compression is positive. *)
Definition measure (compression_positive : bool) (r : record) : prog engineE record :=
  (if compression_positive then
     t <- call OpsGetTime ;;
     d <- call (OpsNodeDisp 2 1) ;;
     Ret (fst r ++ [-1 * d], snd r ++ [-1 * t])
   else
     t <- call OpsGetTime ;;
     d <- call (OpsNodeDisp 2 1) ;;
     Ret (fst r ++ [d], snd r ++ [t]))%prog.

Definition num_steps_of (rate_type : string) (rate_value : pyval)
    (peak_points : list float) (i : nat) : prog engineE pyval :=
  if String.eqb rate_type "None" then Ret (VInt 1)
  else if String.eqb rate_type "StrainRate" then
    lift (b <- getitem peak_points (i + 1)%nat ;;
          a <- getitem peak_points i ;;
          q <- float_truediv (abs (b - a)) rate_value ;;
          n <- ceil q ;;
          Ok (VInt n))%res
  else if String.eqb rate_type "Steps" then Ret rate_value
  else Throw (Exception [Text "Unknown rate_type: "; Text rate_type]).

(** The body of the loop over [j]: one displacement increment, recorded. *)
Definition step_body (compression_positive : bool) (incr : float)
    (j : nat) (r : record) : prog engineE record :=
  (ops "integrator" [VStr "DisplacementControl"; VInt 2; VInt 1; VFloat incr] ;;;
   ops "analyze" [VInt 1] ;;;
   measure compression_positive r)%prog.

(** The body of the loop over [i]: from peak [i] to peak [i+1]. *)
Definition peak_body (peak_points : list float) (rate_type : string)
    (rate_value : pyval) (compression_positive : bool)
    (i : nat) (r : record) : prog engineE record :=
  (num_steps <- num_steps_of rate_type rate_value peak_points i ;;
   b <- lift (getitem peak_points (i + 1)%nat) ;;
   a <- lift (getitem peak_points i) ;;
   incr <- lift (float_truediv (b - a) num_steps) ;;
   js <- lift (range num_steps) ;;
   for_each js (step_body compression_positive incr) r)%prog.

(** The figure drawn when [plot_stress_strain] is set. *)
Definition plot (r : record) : prog engineE unit :=
  (plt "figure" [] ;;;
   plt "plot" [VList (fst r); VList (snd r)] ;;;
   plt "xlabel" [VStr "Strain"] ;;;
   plt "ylabel" [VStr "Stress"] ;;;
   plt "show" [])%prog.

Definition uniaxial_material_analysis
    (definition : list pyval) (peak_points : list float)
    (rate_type : string) (rate_value : pyval) (matTag : Z)
    (plot_stress_strain compression_positive : bool)
    : prog engineE record :=
  ((* Build Model *)
   ops "wipe" [] ;;;
   ops "model" [VStr "basic"; VStr "-ndm"; VInt 1; VStr "-ndf"; VInt 1] ;;;
   ops "node" [VInt 1; VFloat 0.0] ;;;
   ops "node" [VInt 2; VFloat 1.0] ;;;
   ops "fix" [VInt 1; VInt 1] ;;;
   ops "uniaxialMaterial" definition ;;;
   ops "element" [VStr "Truss"; VInt 1; VInt 1; VInt 2; VFloat 1.0; VInt matTag] ;;;
   ops "timeSeries" [VStr "Linear"; VInt 854] ;;;
   ops "pattern" [VStr "Plain"; VInt 979; VInt 854] ;;;
   ops "load" [VInt 2; VFloat 1.0] ;;;
   (* Build and Perform the Analysis *)
   ops "constraints" [VStr "Plain"] ;;;
   ops "numberer" [VStr "RCM"] ;;;
   ops "system" [VStr "BandSPD"] ;;;
   ops "test" [VStr "NormUnbalance"; VFloat 1e-8; VInt 10] ;;;
   ops "algorithm" [VStr "Newton"] ;;;
   p0 <- lift (getitem peak_points 0) ;;
   ops "integrator" [VStr "DisplacementControl"; VInt 2; VInt 1; VFloat p0] ;;;
   ops "analysis" [VStr "Static"] ;;;
   ops "analyze" [VInt 1] ;;;
   r0 <- measure compression_positive ([], []) ;;
   r <- for_each (seq 0 (List.length peak_points - 1)%nat)
          (peak_body peak_points rate_type rate_value compression_positive)
          r0 ;;
   (if plot_stress_strain then plot r else Ret tt) ;;;
   Ret r)%prog.

(** Both lists of [r] have [k] entries more than those of [r0]. *)
Definition grown (k : nat) (r0 r : record) : Prop :=
  List.length (fst r) = (List.length (fst r0) + k)%nat
  /\ List.length (snd r) = (List.length (snd r0) + k)%nat.

(** What the loop over the peaks keeps, after [i] intervals. *)
Definition after_intervals (rate_type : string) (rate_value : pyval)
    (i : nat) (r : record) : Prop :=
  List.length (fst r) = List.length (snd r)
  /\ (rate_type = "None"%string -> List.length (fst r) = (1 + i)%nat)
  /\ (forall n : Z,
        rate_type = "Steps"%string -> rate_value = VInt n ->
        List.length (fst r) = (1 + Z.to_nat n * i)%nat).

(** The lengths of the recorded lists: equal; the number of peaks with
    [rate_type] 'None'; one plus [rate_value] steps per interval between
    peaks with [rate_type] 'Steps', a negative [rate_value] counting for no
    step. *)
Definition lengths_as_recorded (peak_points : list float)
    (rate_type : string) (rate_value : pyval) (r : record) : Prop :=
  List.length (fst r) = List.length (snd r)
  /\ (rate_type = "None"%string ->
      List.length (fst r) = List.length peak_points)
  /\ (forall n : Z,
        rate_type = "Steps"%string -> rate_value = VInt n ->
        Z.of_nat (List.length (fst r))
          = (1 + Z.max 0 n * (Z.of_nat (List.length peak_points) - 1))%Z).

(** An engine that answers every call. *)
Definition answers_all {S : Type} (h : handler engineE S) : Prop :=
  forall (X : Type) (ev : engineE X) (s : S),
    exists (x : X) (s' : S), h X ev s = Ok (x, s').

(** [p] returns under [h], from every state of the engine. *)
Definition returns {S A : Type} (h : handler engineE S) (p : prog engineE A)
    : Prop :=
  forall s : S, exists (a : A) (s' : S), run h p s = Ok (a, s').

(** An engine that accepts every command and reads zero everywhere. *)
Definition idle_engine : handler engineE unit :=
  fun X ev s =>
    match ev in engineE T return result (T * unit) with
    | Ops _ _ => Ok (tt, s)
    | OpsGetTime => Ok (0, s)
    | OpsNodeDisp _ _ => Ok (0, s)
    | Plt _ _ => Ok (tt, s)
    end.

(** [p] raises [e] under [h], from every state of the engine. *)
Definition raises {S A : Type} (h : handler engineE S) (p : prog engineE A)
    (e : exn) : Prop :=
  forall s : S, run h p s = Raise e.

(** The value of a program that makes no call. *)
Definition as_result {A : Type} (p : prog engineE A) : result A :=
  match p with
  | Ret a => Ok a
  | Throw e => Raise e
  | Vis _ _ => Raise RuntimeError
  end.

(** What the loop over [i] works out for interval [i] before it steps: the
    displacement increment and the number of steps. *)
Definition interval_plan (peak_points : list float) (rate_type : string)
    (rate_value : pyval) (i : nat) : result (float * nat) :=
  (num_steps <- as_result (num_steps_of rate_type rate_value peak_points i) ;;
   b <- getitem peak_points (i + 1)%nat ;;
   a <- getitem peak_points i ;;
   incr <- float_truediv (b - a) num_steps ;;
   js <- range num_steps ;;
   Ok (incr, List.length js))%res.

Definition interval_steps (peak_points : list float) (rate_type : string)
    (rate_value : pyval) (i : nat) : nat :=
  match interval_plan peak_points rate_type rate_value i with
  | Ok (_, n) => n
  | Raise _ => 0%nat
  end.

Definition interval_increments (peak_points : list float)
    (rate_type : string) (rate_value : pyval) (i : nat) : list float :=
  match interval_plan peak_points rate_type rate_value i with
  | Ok (incr, n) => repeat incr n
  | Raise _ => []
  end.

(** A recorded value: negated when compression is positive. *)
Definition signed (compression_positive : bool) (x : float) : float :=
  if compression_positive then -1 * x else x.

(** The journal of a run: every command sent to the engine or to
    matplotlib, and every reading taken, in order. *)
Inductive entry : Type :=
| Issued (command : string) (args : list pyval)
| TimeRead (t : float)
| DispRead (node dof : Z) (d : float)
| Plotted (command : string) (args : list pyval).

Definition journal : monitor engineE (list entry) :=
  fun X ev =>
    match ev in engineE T return T -> list entry -> list entry with
    | Ops c args => fun _ j => j ++ [Issued c args]
    | OpsGetTime => fun t j => j ++ [TimeRead t]
    | OpsNodeDisp node dof => fun d j => j ++ [DispRead node dof d]
    | Plt c args => fun _ j => j ++ [Plotted c args]
    end.

(** The displacement increments handed to the integrator. *)
Definition increment_of (e : entry) : list float :=
  match e with
  | Issued c args =>
      if String.eqb c "integrator" then
        match args with
        | [_; _; _; VFloat x] => [x]
        | _ => []
        end
      else []
  | _ => []
  end.

Definition increments (j : list entry) : list float := flat_map increment_of j.

(** The analysis steps run. *)
Definition is_analyze (e : entry) : bool :=
  match e with
  | Issued c _ => String.eqb c "analyze"
  | _ => false
  end.

Definition analyses (j : list entry) : nat := List.length (filter is_analyze j).

(** The readings of the time and of the displacement. *)
Definition time_of (e : entry) : list float :=
  match e with
  | TimeRead t => [t]
  | _ => []
  end.

Definition disp_of (e : entry) : list float :=
  match e with
  | DispRead _ _ d => [d]
  | _ => []
  end.

Definition times (j : list entry) : list float := flat_map time_of j.

Definition disps (j : list entry) : list float := flat_map disp_of j.

(** The steps of the intervals in [done], and their increments. *)
Definition steps_over (peak_points : list float) (rate_type : string)
    (rate_value : pyval) (done : list nat) : nat :=
  list_sum (map (interval_steps peak_points rate_type rate_value) done).

Definition increments_over (peak_points : list float) (rate_type : string)
    (rate_value : pyval) (done : list nat) : list float :=
  flat_map (interval_increments peak_points rate_type rate_value) done.

(** The differences between consecutive peaks, each divided by [y] and
    repeated [n] times. *)
Fixpoint equal_increments (y : float) (n : nat) (peak_points : list float)
    : list float :=
  match peak_points with
  | a :: (b :: _) as rest => repeat ((b - a) / y) n ++ equal_increments y n rest
  | _ => []
  end.

(** The journal [j] and the record [r] agree: the record holds the readings
    in order, a time for every displacement and an analysis step for every
    pair, [n] pairs in all, and the integrator was handed the increments
    [incs]. *)
Definition journal_agrees (compression_positive : bool) (n : nat)
    (incs : list float) (j : list entry) (r : record) : Prop :=
  r = (map (signed compression_positive) (disps j),
       map (signed compression_positive) (times j))
  /\ List.length (times j) = List.length (disps j)
  /\ analyses j = List.length (disps j)
  /\ List.length (disps j) = n
  /\ increments j = incs.

End Uniaxial.

(** * Properties *)

(** ** Facts on binary64 comparisons

    Each comparison is read through its specification on [spec_float], where
    it is decided by case analysis on the class, the sign, the exponent and
    the mantissa. *)

Module FloatFacts.

Import PyFloat EffectiveLength.
Open Scope float_scope.

Lemma Prim2SF_zero : Prim2SF 0 = S754_zero false.
Proof. reflexivity. Qed.

Lemma Prim2SF_inf : Prim2SF inf = S754_infinity false.
Proof. reflexivity. Qed.

Lemma Prim2SF_half : Prim2SF 0.5 = S754_finite false 4503599627370496 (-53).
Proof. reflexivity. Qed.

Lemma Prim2SF_one : Prim2SF 1 = S754_finite false 4503599627370496 (-52).
Proof. reflexivity. Qed.

Lemma Prim2SF_just_below_one :
  Prim2SF just_below_one = S754_finite false 9007199254740991 (-53).
Proof. reflexivity. Qed.

Lemma Prim2SF_1e10 : Prim2SF 1e10 = S754_finite false 5242880000000000 (-19).
Proof. reflexivity. Qed.

Lemma nextafter_one_down : nextafter 1 (- inf) = just_below_one.
Proof. reflexivity. Qed.

Ltac by_spec :=
  rewrite ?leb_spec, ?ltb_spec, ?eqb_spec;
  unfold SFleb, SFltb, SFeqb;
  rewrite ?Prim2SF_zero, ?Prim2SF_inf, ?Prim2SF_half, ?Prim2SF_one,
    ?Prim2SF_just_below_one, ?Prim2SF_1e10.

Ltac by_class x :=
  let s := fresh "s" in
  destruct (Prim2SF x) as [s | s | | s ? ?];
  cbn [SFcompare]; try discriminate; try reflexivity;
  try (destruct s; cbn [SFcompare]; try discriminate; try reflexivity; auto).

(** A float that is below something is a number, hence equal to itself. *)
Lemma leb_refl_l (x y : float) : (x <=? y) = true -> (x <=? x) = true.
Proof.
  by_spec.
  destruct (Prim2SF x) as [s | s | | s m e]; cbn [SFcompare];
    try discriminate; intros _.
  - reflexivity.
  - destruct s; reflexivity.
  - rewrite Z.compare_refl.
    destruct s; rewrite Pos.compare_cont_refl; reflexivity.
Qed.

Lemma half_le_pos (K : float) : (0.5 <=? K) = true -> (0 <? K) = true.
Proof. by_spec. by_class K. Qed.

Lemma nonneg_nonzero_pos (G : float) :
  (0 <=? G) = true -> (G =? 0) = false -> (0 <? G) = true.
Proof. by_spec. by_class G. Qed.

Lemma neg_not_zero (G : float) : (G <? 0) = true -> (G =? 0) = false.
Proof. by_spec. by_class G. Qed.

Lemma neg_not_inf (G : float) : (G <? 0) = true -> (G =? inf) = false.
Proof. by_spec. by_class G. Qed.

Lemma le_1e10_finite (K : float) : (K <=? 1e10) = true -> (K <? inf) = true.
Proof. by_spec. by_class K. Qed.

Lemma le_just_below_one_lt_one (K : float) :
  (K <=? just_below_one) = true -> (K <? 1) = true.
Proof.
  by_spec.
  destruct (Prim2SF K) as [s | s | | s m e]; cbn [SFcompare];
    try discriminate; try reflexivity.
  - destruct s; [reflexivity | discriminate].
  - destruct s; [reflexivity |].
    destruct (Z.compare_spec e (-53)) as [-> | Hlt | Hgt]; intros H.
    + reflexivity.
    + replace (e ?= -52)%Z with Lt; [reflexivity |].
      symmetry. apply Z.compare_lt_iff. lia.
    + discriminate.
Qed.

Lemma ltb_leb (x y : float) : (x <? y) = true -> (x <=? y) = true.
Proof.
  by_spec. destruct (SFcompare (Prim2SF x) (Prim2SF y)) as [[ | | ] | ];
    try discriminate; reflexivity.
Qed.

Lemma digits2_pos_size (m : positive) : digits2_pos m = Pos.size m.
Proof. induction m; cbn [digits2_pos Pos.size]; congruence. Qed.

(** A valid mantissa at exponent [-53] has exactly 53 bits. *)
Lemma valid_at_m53 (s : bool) (m : positive) :
  valid_binary (S754_finite s m (-53)) = true ->
  (m <= 9007199254740991)%positive.
Proof.
  unfold SpecFloat.valid_binary, bounded, canonical_mantissa, fexp.
  intros H. apply andb_prop in H. destruct H as [H _].
  apply Z.eqb_eq in H.
  assert (Hd : Z.pos (digits2_pos m) = 53%Z).
  { unfold SpecFloat.emin, prec, emax in H. lia. }
  rewrite digits2_pos_size in Hd. injection Hd as Hs.
  pose proof (Pos.size_gt m) as Hm. rewrite Hs in Hm.
  apply Pos.lt_succ_r. exact Hm.
Qed.

(** A valid mantissa at exponent [-52] has at least 53 bits. *)
Lemma valid_at_m52 (s : bool) (m : positive) :
  valid_binary (S754_finite s m (-52)) = true ->
  (4503599627370496 <= m)%positive.
Proof.
  unfold SpecFloat.valid_binary, bounded, canonical_mantissa, fexp.
  intros H. apply andb_prop in H. destruct H as [H _].
  apply Z.eqb_eq in H.
  assert (Hd : Z.pos (digits2_pos m) = 53%Z).
  { unfold SpecFloat.emin, prec, emax in H. lia. }
  rewrite digits2_pos_size in Hd. injection Hd as Hs.
  pose proof (Pos.size_le m) as Hm. rewrite Hs in Hm.
  apply Pos2Z.pos_le_pos. apply Pos2Z.pos_le_pos in Hm.
  rewrite Pos2Z.inj_xO in Hm.
  change (Z.pos (2 ^ 53)) with 9007199254740992%Z in Hm. lia.
Qed.

(** No double lies strictly between [just_below_one] and [1]. *)
Lemma lt_one_le_just_below_one (x : float) :
  (x <? 1) = true -> (x <=? just_below_one) = true.
Proof.
  pose proof (Prim2SF_valid x) as Hv. revert Hv.
  by_spec.
  destruct (Prim2SF x) as [s | s | | s m e]; cbn [SFcompare];
    try discriminate; try reflexivity.
  - destruct s; [reflexivity | discriminate].
  - destruct s; [reflexivity |].
    intros Hv.
    destruct (Z.compare_spec e (-52)) as [-> | Hlt | Hgt]; intros H.
    + apply valid_at_m52 in Hv.
      destruct (Pos.compare_cont Eq m 4503599627370496) eqn:Hc;
        try discriminate.
      apply Pos.compare_lt_iff in Hc. apply Pos.lt_nle in Hc.
      destruct (Hc Hv).
    + destruct (Z.compare_spec e (-53)) as [-> | Hlt' | Hgt'].
      * apply valid_at_m53 in Hv.
        destruct (Pos.compare_cont Eq m 9007199254740991) eqn:Hc;
          try reflexivity.
        apply Pos.compare_gt_iff in Hc. apply Pos.lt_nle in Hc.
        destruct (Hc Hv).
      * reflexivity.
      * lia.
    + discriminate.
Qed.

Lemma SFmul_comm (x y : spec_float) : SF64mul x y = SF64mul y x.
Proof.
  unfold SF64mul, SFmul.
  destruct x as [sx | sx | | sx mx ex], y as [sy | sy | | sy my ey];
    try reflexivity; rewrite (xorb_comm sx sy); try reflexivity.
  rewrite (Pos.mul_comm mx my), (Z.add_comm ex ey). reflexivity.
Qed.

Lemma SFadd_comm (x y : spec_float) : SF64add x y = SF64add y x.
Proof.
  unfold SF64add, SFadd.
  destruct x as [sx | sx | | sx mx ex], y as [sy | sy | | sy my ey];
    try reflexivity; try (destruct sx, sy; reflexivity).
  rewrite (Z.min_comm ex ey).
  rewrite (Z.add_comm (cond_Zopp sx _) (cond_Zopp sy _)). reflexivity.
Qed.

(** Multiplication and addition of doubles are commutative. *)
Lemma mul_comm (x y : float) : x * y = y * x.
Proof. apply Prim2SF_inj. rewrite !mul_spec. apply SFmul_comm. Qed.

Lemma add_comm (x y : float) : x + y = y + x.
Proof. apply Prim2SF_inj. rewrite !add_spec. apply SFadd_comm. Qed.

End FloatFacts.

(** ** effective_length_factor: the quick returns and the dispatch *)

Section EffectiveLengthFacts.

Import PyFloat EffectiveLength FloatFacts.
Open Scope float_scope.

Lemma select_inhibited : select_case "inhibited" = Ret inhibited_case.
Proof. reflexivity. Qed.

Lemma select_uninhibited : select_case "uninhibited" = Ret uninhibited_case.
Proof. reflexivity. Qed.

Lemma surrogate_not_inf (G : float) : (G =? inf) = false -> surrogate G = G.
Proof. intros H. unfold surrogate. rewrite H. reflexivity. Qed.

Lemma case_of_bracket (c : SidesCondition) : bracket (case_of c) = spec_bracket c.
Proof. destruct c; reflexivity. Qed.

Lemma case_of_reduced (c : SidesCondition) :
  fcn_with_one_zero (case_of c) = reduced_equation c.
Proof. destruct c; reflexivity. Qed.

Lemma case_of_full (c : SidesCondition) : fcn (case_of c) = full_equation c.
Proof. destruct c; reflexivity. Qed.

(** Past the quick returns, the function is one call of the root finder
    whose result is returned as it is. *)
Lemma past_quick_returns (c : SidesCondition) (GA GB : float) :
  degenerate GA GB = false ->
  effective_length_factor (condition_name c) GA GB =
    if surrogate GA =? 0
    then brentq (reduced_equation c) (spec_bracket c) [surrogate GB]
    else if surrogate GB =? 0
    then brentq (reduced_equation c) (spec_bracket c) [surrogate GA]
    else brentq (full_equation c) (spec_bracket c) [surrogate GA; surrogate GB].
Proof.
  unfold degenerate, effective_length_factor. fold (surrogate GA) (surrogate GB).
  intros H.
  apply orb_false_elim in H. destruct H as [H H4].
  apply orb_false_elim in H. destruct H as [H H3].
  apply orb_false_elim in H. destruct H as [H1 H2].
  rewrite <- case_of_bracket, <- case_of_reduced, <- case_of_full.
  destruct c; cbv [condition_name];
    rewrite ?select_inhibited, ?select_uninhibited; cbn [bind case_of];
    rewrite H1, H4; rewrite H2, H3; cbn [orb];
    destruct (surrogate GA =? 0), (surrogate GB =? 0); reflexivity.
Qed.

(** On a degenerate pair the function returns at once. *)
Lemma quick_return (c : SidesCondition) (GA GB : float) :
  degenerate GA GB = true ->
  exists K, effective_length_factor (condition_name c) GA GB = Ret K.
Proof.
  unfold degenerate, effective_length_factor.
  destruct c; cbv [condition_name];
    rewrite ?select_inhibited, ?select_uninhibited; cbn [bind];
    destruct (GA =? inf), (GB =? inf), (GA =? 0), (GB =? 0);
    cbn [andb orb]; try discriminate; intros _; eexists; reflexivity.
Qed.

(** The two ratios cannot both be zero past the quick returns. *)
Lemma not_both_zero (GA GB : float) :
  degenerate GA GB = false ->
  (surrogate GA =? 0) && (surrogate GB =? 0) = false.
Proof.
  unfold degenerate. intros H.
  apply orb_false_elim in H. destruct H as [_ H0].
  unfold surrogate.
  destruct (GA =? inf); [reflexivity |].
  destruct (GB =? inf); [apply andb_false_r | exact H0].
Qed.

(** C1. For both conditions and the four pairs of degenerate stiffness
    ratios (infinite or zero at each end), [effective_length_factor] returns
    exactly the value of the degenerate-case table, and does so without any
    call of the root finder. *)
Theorem degenerate_cases_exact (c : SidesCondition) (a b : degenerate_G) :
  effective_length_factor (condition_name c)
      (degenerate_value a) (degenerate_value b)
    = Ret (degenerate_table c a b)
  /\ calls_nothing (effective_length_factor (condition_name c)
         (degenerate_value a) (degenerate_value b)) = true.
Proof. destruct c, a, b; split; reflexivity. Qed.

(** C2. In the general case (no quick return), [effective_length_factor]
    replaces an infinite GA or GB by 1e10 and then calls the root finder on
    the reduced one-variable equation with the non-zero ratio when exactly
    one ratio is zero, and on the full two-variable equation with both
    ratios otherwise. *)
Theorem general_case_dispatch (c : SidesCondition) (GA GB : float) :
  degenerate GA GB = false ->
  effective_length_factor (condition_name c) GA GB = general_case c GA GB.
Proof.
  intros H. rewrite (past_quick_returns c GA GB H).
  unfold general_case. cbv zeta.
  pose proof (not_both_zero GA GB H) as Hboth.
  destruct (surrogate GA =? 0), (surrogate GB =? 0);
    try discriminate; reflexivity.
Qed.

Lemma general_case_dispatch_witness :
  degenerate 10 0.45469570131810483 = false
  /\ effective_length_factor "inhibited" 10 0.45469570131810483
     = general_case Inhibited 10 0.45469570131810483.
Proof.
  split; [reflexivity |].
  apply (general_case_dispatch Inhibited 10 0.45469570131810483). reflexivity.
Defined.

(** C3. For every input past the quick returns, the bracket handed to the
    root finder is (0.5, the largest double strictly below 1.0) with sidesway
    inhibited and (1.0, 1e10) with sidesway uninhibited; the upper end of the
    former is what [nextafter 1.0 (-inf)] evaluates to. *)
Theorem root_bracket (c : SidesCondition) (GA GB : float) :
  degenerate GA GB = false ->
  is_largest_below 1 just_below_one
  /\ nextafter 1 (- inf) = just_below_one
  /\ exists f args,
       first_call (effective_length_factor (condition_name c) GA GB)
         = Some (f, spec_bracket c, args).
Proof.
  intros H. split; [| split].
  - split; [reflexivity | exact lt_one_le_just_below_one].
  - exact nextafter_one_down.
  - rewrite (past_quick_returns c GA GB H).
    destruct (surrogate GA =? 0), (surrogate GB =? 0);
      destruct c; eexists; eexists; reflexivity.
Qed.

Lemma root_bracket_witness :
  degenerate 0 0.6067769722307135 = false
  /\ is_largest_below 1 just_below_one
  /\ nextafter 1 (- inf) = just_below_one
  /\ exists f args,
       first_call (effective_length_factor "inhibited" 0 0.6067769722307135)
         = Some (f, (0.5, just_below_one), args).
Proof.
  split; [reflexivity |].
  apply (root_bracket Inhibited 0 0.6067769722307135). reflexivity.
Defined.

(** C4. Whatever GA and GB are (zero and infinity included), a condition
    that is neither 'inhibited' nor 'uninhibited' makes
    [effective_length_factor] raise ValueError: no value is returned and the
    root finder is not called. *)
Theorem unknown_condition_raises (sidesway : string) (GA GB : float) :
  sidesway <> "inhibited"%string ->
  sidesway <> "uninhibited"%string ->
  effective_length_factor sidesway GA GB
    = Throw (ValueError [Text "Unrecognized sidesway value "; Repr sidesway]).
Proof.
  intros H1 H2. unfold effective_length_factor, select_case.
  apply String.eqb_neq in H1. apply String.eqb_neq in H2.
  rewrite H1, H2. reflexivity.
Qed.

Lemma unknown_condition_raises_witness :
  effective_length_factor "braced" 0 inf
    = Throw (ValueError [Text "Unrecognized sidesway value "; Repr "braced"]).
Proof.
  apply (unknown_condition_raises "braced" 0 inf); discriminate.
Defined.

(** ** effective_length_factor: what reaches the root finder *)

Lemma bracket_in_range (c : SidesCondition) (K : float) :
  (fst (spec_bracket c) <=? K) = true ->
  (K <=? snd (spec_bracket c)) = true ->
  in_range c K = true.
Proof.
  destruct c; cbn [spec_bracket fst snd in_range]; intros Hlo Hhi;
    apply andb_true_intro; split.
  - apply half_le_pos. exact Hlo.
  - apply ltb_leb. apply le_just_below_one_lt_one. exact Hhi.
  - exact Hlo.
  - apply le_1e10_finite. exact Hhi.
Qed.

Lemma lower_end_solver_keeps_bracket : keeps_bracket lower_end_solver.
Proof.
  intros f a b args s K s'. cbn [lower_end_solver].
  destruct (a <=? b) eqn:Hab; [| discriminate].
  intros H. injection H as <- _. split; [| exact Hab].
  apply (leb_refl_l a b). exact Hab.
Qed.

(** The whole call is the root finder's answer, whatever the root finder. *)
Lemma run_brentq {S : Type} (h : handler solverE S) (f : nomogram_fcn)
    (br : float * float) (args : list float) (s : S) :
  run h (brentq f br args) s = h _ (Brentq f (fst br) (snd br) args) s.
Proof.
  cbn [brentq call run].
  destruct (h float (Brentq f (fst br) (snd br) args) s) as [[K s'] | e];
    reflexivity.
Qed.

(** C7. For every input past the quick returns, a value returned by
    [effective_length_factor] lies in (0, 1] with sidesway inhibited and in
    [1, inf) with sidesway uninhibited, the root finder answering inside the
    bracket it is given. *)
Theorem result_in_range {S : Type} (h : handler solverE S)
    (c : SidesCondition) (GA GB : float) (s s' : S) (K : float) :
  keeps_bracket h ->
  degenerate GA GB = false ->
  run h (effective_length_factor (condition_name c) GA GB) s = Ok (K, s') ->
  in_range c K = true.
Proof.
  intros Hh Hd. rewrite (past_quick_returns c GA GB Hd).
  destruct (surrogate GA =? 0), (surrogate GB =? 0);
    rewrite run_brentq; intros Hrun;
    destruct (Hh _ _ _ _ _ _ _ Hrun) as [Hlo Hhi];
    apply bracket_in_range; assumption.
Qed.

Lemma result_in_range_witness :
  keeps_bracket lower_end_solver
  /\ degenerate 10 0.45469570131810483 = false
  /\ run lower_end_solver
       (effective_length_factor "inhibited" 10 0.45469570131810483) tt
     = Ok (0.5, tt)
  /\ in_range Inhibited 0.5 = true.
Proof.
  split; [exact lower_end_solver_keeps_bracket |].
  split; [reflexivity |]. split; [reflexivity |].
  apply (result_in_range lower_end_solver Inhibited 10 0.45469570131810483
           tt tt 0.5).
  - exact lower_end_solver_keeps_bracket.
  - reflexivity.
  - reflexivity.
Defined.

Lemma negative_not_degenerate_l (GA GB : float) :
  (GA <? 0) = true -> degenerate GA GB = false.
Proof.
  intros H. unfold degenerate.
  rewrite (neg_not_zero GA H), (neg_not_inf GA H). reflexivity.
Qed.

Lemma negative_not_degenerate_r (GA GB : float) :
  (GB <? 0) = true -> degenerate GA GB = false.
Proof.
  intros H. unfold degenerate.
  rewrite (neg_not_zero GB H), (neg_not_inf GB H).
  rewrite !andb_false_r. reflexivity.
Qed.

Lemma negative_surrogate (G : float) :
  (G <? 0) = true -> surrogate G = G /\ (surrogate G =? 0) = false.
Proof.
  intros H. rewrite (surrogate_not_inf G (neg_not_inf G H)).
  split; [reflexivity | exact (neg_not_zero G H)].
Qed.

(** C8, as the code has it. With a recognized condition and a negative GA
    or GB, [effective_length_factor] checks nothing and raises nothing of its
    own: each negative ratio goes unchanged to the root finder, as a
    parameter of the nomogram equation over the bracket of the condition, and
    the outcome of the call, a value or an error, is the root finder's. *)
Theorem negative_ratio_reaches_solver (c : SidesCondition) (GA GB : float) :
  (GA <? 0) = true \/ (GB <? 0) = true ->
  exists f args,
    effective_length_factor (condition_name c) GA GB
      = brentq f (spec_bracket c) args
    /\ ((GA <? 0) = true -> In GA args)
    /\ ((GB <? 0) = true -> In GB args)
    /\ forall (S : Type) (h : handler solverE S) (s : S),
         run h (effective_length_factor (condition_name c) GA GB) s
           = h _ (Brentq f (fst (spec_bracket c)) (snd (spec_bracket c)) args) s.
Proof.
  intros Hneg.
  assert (Hd : degenerate GA GB = false).
  { destruct Hneg as [H | H];
      [apply negative_not_degenerate_l | apply negative_not_degenerate_r];
      exact H. }
  assert (Hcall : exists f args,
             effective_length_factor (condition_name c) GA GB
               = brentq f (spec_bracket c) args
             /\ ((GA <? 0) = true -> In GA args)
             /\ ((GB <? 0) = true -> In GB args)).
  { rewrite (past_quick_returns c GA GB Hd).
    destruct (surrogate GA =? 0) eqn:HA, (surrogate GB =? 0) eqn:HB;
      eexists; eexists; (split; [reflexivity |]); split; intros H;
      destruct (negative_surrogate _ H) as [Heq Hnz];
      try congruence; rewrite Heq; cbn [In]; auto. }
  destruct Hcall as [f [args [Heq [HA HB]]]].
  exists f, args. repeat split; try assumption.
  intros S h s. rewrite Heq. apply run_brentq.
Qed.

Lemma negative_ratio_reaches_solver_witness :
  ((-1 <? 0) = true \/ (1 <? 0) = true)
  /\ exists f args,
       effective_length_factor "inhibited" (-1) 1
         = brentq f (0.5, just_below_one) args
       /\ ((-1 <? 0) = true -> In (-1) args)
       /\ ((1 <? 0) = true -> In 1 args)
       /\ forall (S : Type) (h : handler solverE S) (s : S),
            run h (effective_length_factor "inhibited" (-1) 1) s
              = h _ (Brentq f 0.5 just_below_one args) s.
Proof.
  split; [left; reflexivity |].
  apply (negative_ratio_reaches_solver Inhibited (-1) 1). left. reflexivity.
Defined.

(** C8, as the claim words it, fails: with sidesway uninhibited, GA = 0 and
    GB = -12 the function raises nothing; it calls the root finder on the
    reduced equation with -12 as parameter, and returns what the root finder
    answers. *)
Lemma negative_ratio_not_rejected :
  (-12 <? 0) = true
  /\ effective_length_factor "uninhibited" 0 (-12)
     = brentq fn_sidesway_uninhibited_one_zero (1, 1e10) [-12]
  /\ (forall e, effective_length_factor "uninhibited" 0 (-12) <> Throw e)
  /\ run lower_end_solver (effective_length_factor "uninhibited" 0 (-12)) tt
     = Ok (1, tt).
Proof.
  split; [reflexivity |]. split; [reflexivity |].
  split; [intros e; discriminate | reflexivity].
Qed.

Lemma positive_not_zero (G : float) : (0 <? G) = true -> (G =? 0) = false.
Proof. by_spec. by_class G. Qed.

(** C9. With GA and GB not negative, a call of the root finder on a reduced
    one-variable equation carries one parameter G and that G is strictly
    positive, so that the division by G in the equation does not divide by
    zero: the pair of two zeros never gets that far. *)
Theorem one_zero_argument_positive (c : SidesCondition) (GA GB : float)
    (f : nomogram_fcn) (br : float * float) (args : list float) :
  (0 <=? GA) = true ->
  (0 <=? GB) = true ->
  first_call (effective_length_factor (condition_name c) GA GB)
    = Some (f, br, args) ->
  f = fn_sidesway_inhibited_one_zero \/ f = fn_sidesway_uninhibited_one_zero ->
  exists G, args = [G] /\ (0 <? G) = true /\ truediv (-6) G = Ok (-6 / G).
Proof.
  intros HA HB Hcall Hf.
  destruct (degenerate GA GB) eqn:Hd.
  { destruct (quick_return c GA GB Hd) as [K HK].
    rewrite HK in Hcall. discriminate. }
  pose proof (not_both_zero GA GB Hd) as Hboth.
  assert (Hpos : forall G G' : float,
             (0 <=? G) = true -> (surrogate G' =? 0) = true ->
             (surrogate G =? 0) = false -> (0 <? surrogate G) = true).
  { intros G G' HG HG' HnzG.
    unfold surrogate in *.
    destruct (G =? inf); [reflexivity |].
    apply nonneg_nonzero_pos; assumption. }
  rewrite (past_quick_returns c GA GB Hd) in Hcall.
  destruct (surrogate GA =? 0) eqn:EA, (surrogate GB =? 0) eqn:EB;
    try discriminate; cbn [brentq call first_call] in Hcall;
    injection Hcall as <- _ <-.
  - exists (surrogate GB).
    assert (Hp : (0 <? surrogate GB) = true) by (apply (Hpos GB GA); assumption).
    split; [reflexivity |]. split; [exact Hp |].
    unfold truediv. rewrite (positive_not_zero _ Hp). reflexivity.
  - exists (surrogate GA).
    assert (Hp : (0 <? surrogate GA) = true) by (apply (Hpos GA GB); assumption).
    split; [reflexivity |]. split; [exact Hp |].
    unfold truediv. rewrite (positive_not_zero _ Hp). reflexivity.
  - destruct c, Hf as [Hf | Hf]; discriminate.
Qed.

Lemma one_zero_argument_positive_witness :
  (0 <=? 0) = true /\ (0 <=? 4.5) = true
  /\ first_call (effective_length_factor "uninhibited" 0 4.5)
     = Some (fn_sidesway_uninhibited_one_zero, (1, 1e10), [4.5])
  /\ exists G, [4.5] = [G] /\ (0 <? G) = true
               /\ truediv (-6) G = Ok (-6 / G).
Proof.
  split; [reflexivity |]. split; [reflexivity |]. split; [reflexivity |].
  apply (one_zero_argument_positive Uninhibited 0 4.5
           fn_sidesway_uninhibited_one_zero (1, 1e10) [4.5]).
  - reflexivity.
  - reflexivity.
  - reflexivity.
  - right. reflexivity.
Defined.

End EffectiveLengthFacts.

(** ** effective_length_factor: exchanging the two ends *)

Section ExchangedEnds.

Import PyFloat EffectiveLength FloatFacts.
Open Scope float_scope.

(** Exchanging GA and GB changes nothing but the order of the parameters
    handed to the root finder: same quick return, same error, same function
    and bracket. *)
Lemma exchanged_ends (sidesway : string) (GA GB : float) :
  effective_length_factor sidesway GB GA
    = with_args_reversed (effective_length_factor sidesway GA GB).
Proof.
  unfold effective_length_factor, select_case.
  destruct (String.eqb sidesway "inhibited");
    [| destruct (String.eqb sidesway "uninhibited")];
    cbn [bind with_args_reversed]; try reflexivity;
    destruct (GA =? inf) eqn:E1, (GB =? inf) eqn:E2,
             (GA =? 0) eqn:E3, (GB =? 0) eqn:E4;
    cbv beta iota zeta; rewrite ?E3, ?E4; reflexivity.
Qed.

Variable tan : float -> result float.
Variable pow : float -> float -> result float.

Lemma uninhibited_objective_exchanged (K GA GB : float) :
  _sidesway_uninhibited tan pow K GB GA = _sidesway_uninhibited tan pow K GA GB.
Proof.
  unfold _sidesway_uninhibited.
  rewrite (mul_comm GB GA), (add_comm GB GA). reflexivity.
Qed.

(** The inhibited equation multiplies 0.25 by GA first: exchanging the ends
    keeps its value when that product does not depend on the order. *)
Lemma inhibited_objective_exchanged (K GA GB : float) :
  0.25 * GB * GA = 0.25 * GA * GB ->
  _sidesway_inhibited tan pow K GB GA = _sidesway_inhibited tan pow K GA GB.
Proof.
  intros H. unfold _sidesway_inhibited.
  rewrite H, (add_comm GB GA). reflexivity.
Qed.

(** In double arithmetic the product can depend on the order, once the
    first factor is subnormal. *)
Lemma inhibited_product_order :
  0.25 * 0x1p-1074 * 3 = 0 /\ 0.25 * 3 * 0x1p-1074 = 0x1p-1074.
Proof. split; reflexivity. Qed.

Lemma call_fcn_arity (f : nomogram_fcn) (x : float) (args : list float) :
  (3 <= List.length args)%nat -> call_fcn tan pow f x args = Raise TypeError.
Proof.
  destruct args as [| a [| b [| c args]]]; cbn [List.length]; try lia.
  intros _. destruct f; reflexivity.
Qed.

Lemma objective_exchanged (f : nomogram_fcn) (x : float) (args : list float) :
  (f = fn_sidesway_inhibited ->
   forall a b, args = [a; b] -> 0.25 * b * a = 0.25 * a * b) ->
  call_fcn tan pow f x (rev args) = call_fcn tan pow f x args.
Proof.
  intros Hf.
  destruct (Nat.le_gt_cases 3 (List.length args)) as [Hlen | Hlen].
  - rewrite !call_fcn_arity; [reflexivity | exact Hlen |].
    rewrite length_rev. exact Hlen.
  - destruct args as [| a [| b [| c args]]]; try reflexivity.
    + cbn [rev app call_fcn]. destruct f; try reflexivity.
      * apply inhibited_objective_exchanged.
        apply (Hf eq_refl a b eq_refl).
      * apply uninhibited_objective_exchanged.
    + cbn [List.length] in Hlen. lia.
Qed.

(** A root finder whose answer depends on the values of its objective
    only. *)
Variable root_finder : (float -> result float) -> float -> float -> result float.
Hypothesis root_finder_values :
  forall (g g' : float -> result float) (a b : float),
    (forall x, g x = g' x) -> root_finder g a b = root_finder g' a b.

(** The outcome does not depend on which end is which, as long as the
    product 0.25 GA GB of the inhibited equation does not. *)
Lemma symmetric_up_to_product (sidesway : string) (GA GB : float) :
  (sidesway = "inhibited"%string ->
   0.25 * surrogate GB * surrogate GA = 0.25 * surrogate GA * surrogate GB) ->
  run (brentq_handler tan pow root_finder)
      (effective_length_factor sidesway GB GA) tt
  = run (brentq_handler tan pow root_finder)
      (effective_length_factor sidesway GA GB) tt.
Proof.
  intros Hprod. rewrite exchanged_ends.
  assert (Hc : (exists c, sidesway = condition_name c)
               \/ (sidesway <> "inhibited" /\ sidesway <> "uninhibited")%string).
  { destruct (String.eqb_spec sidesway "inhibited") as [-> | H1];
      [left; exists Inhibited; reflexivity |].
    destruct (String.eqb_spec sidesway "uninhibited") as [-> | H2];
      [left; exists Uninhibited; reflexivity | right; split; assumption]. }
  destruct Hc as [[c ->] | [H1 H2]].
  - destruct (degenerate GA GB) eqn:Hd.
    + destruct (quick_return c GA GB Hd) as [K HK]. rewrite HK. reflexivity.
    + rewrite (past_quick_returns c GA GB Hd).
      destruct (surrogate GA =? 0), (surrogate GB =? 0);
        cbn [with_args_reversed brentq call run brentq_handler rbind];
        (erewrite root_finder_values;
         [reflexivity | intros x; apply objective_exchanged]);
        intros Hf a b Hab; destruct c; try discriminate;
        injection Hab as <- <-; apply Hprod; reflexivity.
  - unfold effective_length_factor, select_case.
    apply String.eqb_neq in H1. apply String.eqb_neq in H2.
    rewrite H1, H2. reflexivity.
Qed.

(** X3. With sidesway uninhibited, and a root finder that reads its
    objective by its values, the outcome does not depend on which end is
    which; neither does the error of a name that is not recognized. *)
Lemma uninhibited_symmetric (sidesway : string) (GA GB : float) :
  sidesway <> "inhibited"%string ->
  run (brentq_handler tan pow root_finder)
      (effective_length_factor sidesway GB GA) tt
  = run (brentq_handler tan pow root_finder)
      (effective_length_factor sidesway GA GB) tt.
Proof.
  intros Hs. apply symmetric_up_to_product. intros H. contradiction.
Qed.

End ExchangedEnds.

(** ** Reasoning on programs *)

Section Programs.

Context {E : Type -> Type}.

Lemma every_return_impl {A : Type} (P Q : A -> Prop) (p : prog E A) :
  (forall a, P a -> Q a) -> every_return P p -> every_return Q p.
Proof.
  intros HPQ. induction p as [a | e | X ev k IH]; cbn [every_return].
  - apply HPQ.
  - trivial.
  - intros H x. apply IH. apply H.
Qed.

Lemma every_return_bind {A B : Type} (P : B -> Prop) (m : prog E A)
    (f : A -> prog E B) :
  every_return (fun a => every_return P (f a)) m ->
  every_return P (bind m f).
Proof.
  induction m as [a | e | X ev k IH]; cbn [every_return bind].
  - trivial.
  - trivial.
  - intros H x. apply IH. apply H.
Qed.

Lemma every_return_call {A X : Type} (P : A -> Prop) (ev : E X)
    (f : X -> prog E A) :
  (forall x, every_return P (f x)) -> every_return P (bind (call ev) f).
Proof. intros H. cbn [call bind every_return]. exact H. Qed.

(** What holds of every return holds of the return of any run. *)
Lemma every_return_run {S A : Type} (h : handler E S) (P : A -> Prop)
    (p : prog E A) (s s' : S) (a : A) :
  every_return P p -> run h p s = Ok (a, s') -> P a.
Proof.
  revert s. induction p as [a0 | e | X ev k IH]; cbn [every_return run];
    intros s HP Hrun.
  - injection Hrun as <- _. exact HP.
  - discriminate.
  - destruct (h X ev s) as [[x s1] | e]; [| discriminate].
    apply (IH x s1); [apply HP | exact Hrun].
Qed.

End Programs.

(** ** uniaxial_material_analysis: the recorded lists *)

Section UniaxialFacts.

Import PyFloat Uniaxial.

Lemma every_return_lift {A : Type} (P : A -> Prop) (r : result A) :
  (forall a, r = Ok a -> P a) -> every_return P (lift r).
Proof.
  intros H. destruct r as [a | e]; cbn [lift every_return]; auto.
Qed.

(** A loop keeps what its body keeps, counted by the rounds done. *)
Lemma for_each_rounds {A S : Type} (Inv : nat -> S -> Prop)
    (body : A -> S -> prog engineE S) (l : list A) :
  forall (n : nat) (s : S),
    Inv n s ->
    (forall k a s0, Inv k s0 -> every_return (Inv (Datatypes.S k)) (body a s0)) ->
    every_return (Inv (n + List.length l)%nat) (for_each l body s).
Proof.
  induction l as [| a l IH]; intros n s Hs Hbody; cbn [for_each List.length].
  - rewrite Nat.add_0_r. exact Hs.
  - apply every_return_bind.
    apply (every_return_impl (Inv (Datatypes.S n))); [| apply Hbody; exact Hs].
    intros s1 Hs1. rewrite <- Nat.add_succ_comm. apply IH; assumption.
Qed.

Lemma measure_grows (compression_positive : bool) (r0 : record) (k : nat)
    (r : record) :
  grown k r0 r ->
  every_return (grown (Datatypes.S k) r0) (measure compression_positive r).
Proof.
  intros [H1 H2]. unfold measure.
  destruct compression_positive; cbn [call bind every_return];
    intros t d; unfold grown; cbn [fst snd];
    rewrite !length_app; cbn [List.length]; lia.
Qed.

Lemma grown_zero (r : record) : grown 0 r r.
Proof. unfold grown. rewrite !Nat.add_0_r. split; reflexivity. Qed.

Lemma steps_grow (compression_positive : bool) (incr : float)
    (js : list nat) (r : record) :
  every_return (grown (List.length js) r)
    (for_each js (step_body compression_positive incr) r).
Proof.
  apply (for_each_rounds (fun k => grown k r)
           (step_body compression_positive incr) js 0 r).
  - apply grown_zero.
  - intros k j r1 H. unfold step_body, ops.
    apply every_return_call. intros _.
    apply every_return_call. intros _.
    apply measure_grows. exact H.
Qed.

(** The number of steps of an interval, for the two rate types whose count
    does not depend on the peaks. *)
Lemma num_steps_of_spec (rate_type : string) (rate_value : pyval)
    (peak_points : list float) (i : nat) :
  every_return
    (fun v => (rate_type = "None"%string -> v = VInt 1)
              /\ (rate_type = "Steps"%string -> v = rate_value))
    (num_steps_of rate_type rate_value peak_points i).
Proof.
  unfold num_steps_of.
  destruct (String.eqb rate_type "None") eqn:E1.
  { apply String.eqb_eq in E1. subst rate_type. cbn [every_return].
    split; [reflexivity | discriminate]. }
  destruct (String.eqb rate_type "StrainRate") eqn:E2.
  { apply String.eqb_eq in E2. subst rate_type.
    apply every_return_lift. intros v _. split; discriminate. }
  destruct (String.eqb rate_type "Steps") eqn:E3.
  { apply String.eqb_eq in E3. subst rate_type. cbn [every_return].
    split; [discriminate | reflexivity]. }
  cbn [every_return]. trivial.
Qed.

Lemma peak_body_keeps (peak_points : list float) (rate_type : string)
    (rate_value : pyval) (compression_positive : bool)
    (k i : nat) (r : record) :
  after_intervals rate_type rate_value k r ->
  every_return (after_intervals rate_type rate_value (Datatypes.S k))
    (peak_body peak_points rate_type rate_value compression_positive i r).
Proof.
  intros [Heq [HN HS]]. unfold peak_body.
  apply every_return_bind.
  eapply every_return_impl; [| apply num_steps_of_spec].
  intros v [HvN HvS]. cbv beta.
  apply every_return_bind, every_return_lift. intros b _.
  apply every_return_bind, every_return_lift. intros a _.
  apply every_return_bind, every_return_lift. intros incr _.
  apply every_return_bind, every_return_lift. intros js Hjs.
  eapply every_return_impl; [| apply steps_grow].
  intros r' [G1 G2]. cbv beta. unfold after_intervals.
  split; [lia |]. split.
  - intros HrN. rewrite (HvN HrN) in Hjs. cbn in Hjs.
    injection Hjs as <-. cbn [List.length] in G1. specialize (HN HrN). lia.
  - intros n HrS Hrv. rewrite (HvS HrS), Hrv in Hjs. cbn [range] in Hjs.
    injection Hjs as <-. rewrite length_seq in G1.
    specialize (HS n HrS Hrv). lia.
Qed.

(** Every return of the driver has its lists as long as the claim says,
    whatever the engine answers. *)
Lemma recorded_lengths_every_return
    (definition : list pyval) (peak_points : list float)
    (rate_type : string) (rate_value : pyval) (matTag : Z)
    (plot_stress_strain compression_positive : bool) :
  every_return (lengths_as_recorded peak_points rate_type rate_value)
    (uniaxial_material_analysis definition peak_points rate_type rate_value
       matTag plot_stress_strain compression_positive).
Proof.
  unfold uniaxial_material_analysis, ops.
  do 15 (apply every_return_call; intros _).
  apply every_return_bind, every_return_lift. intros p0 Hp0.
  do 3 (apply every_return_call; intros _).
  apply every_return_bind.
  eapply every_return_impl; [| apply (measure_grows _ ([], []) 0), grown_zero].
  intros r0 [G1 G2]. cbn [fst snd List.length Nat.add] in G1, G2.
  apply every_return_bind.
  eapply every_return_impl;
    [| apply (for_each_rounds (after_intervals rate_type rate_value)
                (peak_body peak_points rate_type rate_value
                   compression_positive)
                (seq 0 (List.length peak_points - 1)) 0 r0)].
  - intros r [Heq [HN HS]]. rewrite length_seq in HN, HS. cbn [Nat.add] in HN, HS.
    assert (Hlen : (1 <= List.length peak_points)%nat).
    { destruct peak_points; [discriminate | cbn [List.length]; lia]. }
    assert (Hend : lengths_as_recorded peak_points rate_type rate_value r).
    { split; [exact Heq |]. split.
      - intros HrN. rewrite (HN HrN). lia.
      - intros n HrS Hrv. rewrite (HS n HrS Hrv). nia. }
    apply every_return_bind.
    destruct plot_stress_strain; [| exact Hend].
    unfold plot, plt. do 4 (apply every_return_call; intros _).
    cbn [call every_return]. intros _. exact Hend.
  - unfold after_intervals. rewrite G1, G2. split; [reflexivity |].
    split; [intros _ | intros n _ _]; lia.
  - intros k i r1 H. apply peak_body_keeps. exact H.
Qed.

(** C10, as the code has it. The two lists that [uniaxial_material_analysis]
    returns have the same length; with [rate_type] 'None' that length is the
    number of peak points; with [rate_type] 'Steps' and an int [rate_value]
    it is 1 + max(rate_value, 0) * (len(peak_points) - 1): a negative
    [rate_value] runs no step. *)
Theorem recorded_lengths {S : Type} (h : handler engineE S)
    (definition : list pyval) (peak_points : list float)
    (rate_type : string) (rate_value : pyval) (matTag : Z)
    (plot_stress_strain compression_positive : bool)
    (s s' : S) (strain stress : list float) :
  run h (uniaxial_material_analysis definition peak_points rate_type
           rate_value matTag plot_stress_strain compression_positive) s
    = Ok ((strain, stress), s') ->
  lengths_as_recorded peak_points rate_type rate_value (strain, stress).
Proof.
  intros Hrun.
  apply (every_return_run h _ _ s s' (strain, stress)
           (recorded_lengths_every_return definition peak_points rate_type
              rate_value matTag plot_stress_strain compression_positive)).
  exact Hrun.
Qed.

Lemma recorded_lengths_witness :
  run idle_engine
    (uniaxial_material_analysis [VStr "Elastic"; VInt 1; VFloat 29000]
       [0; 0.5; 1]%float "Steps" (VInt 2) 1 false true) tt
    = Ok (([-0; -0; -0; -0; -0], [-0; -0; -0; -0; -0])%float, tt)
  /\ lengths_as_recorded [0; 0.5; 1]%float "Steps" (VInt 2)
       ([-0; -0; -0; -0; -0], [-0; -0; -0; -0; -0])%float.
Proof.
  split; [reflexivity |].
  apply (recorded_lengths idle_engine [VStr "Elastic"; VInt 1; VFloat 29000]
           [0; 0.5; 1]%float "Steps" (VInt 2) 1 false true tt tt).
  reflexivity.
Defined.

(** C10, as the claim words it, fails: with [rate_type] 'Steps', a
    [rate_value] of -2 and two peak points the loop over the steps is empty,
    and the lists returned have one entry, not 1 + (-2) * (2 - 1). *)
Lemma negative_steps_record_one_point :
  run idle_engine
    (uniaxial_material_analysis [VStr "Elastic"; VInt 1; VFloat 29000]
       [0; 1]%float "Steps" (VInt (-2)) 1 false false) tt
    = Ok (([0], [0])%float, tt)
  /\ every_return (fun r => List.length (fst r) = 1%nat)
       (uniaxial_material_analysis [VStr "Elastic"; VInt 1; VFloat 29000]
          [0; 1]%float "Steps" (VInt (-2)) 1 false false)
  /\ Z.of_nat 1 <> (1 + -2 * (Z.of_nat (List.length [0; 1]%float) - 1))%Z.
Proof.
  split; [reflexivity |]. split.
  - eapply every_return_impl;
      [| apply (recorded_lengths_every_return
                  [VStr "Elastic"; VInt 1; VFloat 29000] [0; 1]%float
                  "Steps" (VInt (-2)) 1 false false)].
    intros r [_ [_ H]]. specialize (H (-2)%Z eq_refl eq_refl).
    cbn in H. lia.
  - cbn. lia.
Qed.

(** *** The driver does return *)

Lemma run_bind {E : Type -> Type} {S A B : Type} (h : handler E S)
    (m : prog E A) (f : A -> prog E B) (s : S) :
  run h (bind m f) s =
    match run h m s with
    | Ok (a, s1) => run h (f a) s1
    | Raise e => Raise e
    end.
Proof.
  revert s. induction m as [a | e | X ev k IH]; intros s; cbn [bind run].
  - reflexivity.
  - reflexivity.
  - destruct (h X ev s) as [[x s1] | e]; [apply IH | reflexivity].
Qed.

Section Returns.

Context {S : Type} (h : handler engineE S).
Hypothesis Hh : answers_all h.

Lemma returns_bind {A B : Type} (m : prog engineE A) (f : A -> prog engineE B) :
  returns h m -> (forall a, returns h (f a)) -> returns h (bind m f).
Proof.
  intros Hm Hf s. rewrite run_bind.
  destruct (Hm s) as [a [s1 ->]]. apply Hf.
Qed.

Lemma returns_ret {A : Type} (a : A) : returns h (Ret a).
Proof. intros s. exists a, s. reflexivity. Qed.

Lemma returns_call {X : Type} (ev : engineE X) : returns h (call ev).
Proof.
  intros s. cbn [call run]. destruct (Hh X ev s) as [x [s1 ->]].
  exists x, s1. reflexivity.
Qed.

Lemma returns_lift {A : Type} (r : result A) (a : A) :
  r = Ok a -> returns h (lift r).
Proof. intros ->. apply returns_ret. Qed.

Lemma returns_for_each {A T : Type} (body : A -> T -> prog engineE T)
    (l : list A) :
  (forall a t, In a l -> returns h (body a t)) ->
  forall t, returns h (for_each l body t).
Proof.
  induction l as [| a l IH]; intros Hbody t; cbn [for_each].
  - apply returns_ret.
  - apply returns_bind.
    + apply Hbody. left. reflexivity.
    + intros t1. apply IH. intros a' t' Hin. apply Hbody. right. exact Hin.
Qed.

Lemma returns_measure (compression_positive : bool) (r : record) :
  returns h (measure compression_positive r).
Proof.
  unfold measure. destruct compression_positive;
    (apply returns_bind; [apply returns_call | intros t]);
    (apply returns_bind; [apply returns_call | intros d]);
    apply returns_ret.
Qed.

Lemma returns_step_body (compression_positive : bool) (incr : float)
    (j : nat) (r : record) :
  returns h (step_body compression_positive incr j r).
Proof.
  unfold step_body, ops.
  apply returns_bind; [apply returns_call | intros _].
  apply returns_bind; [apply returns_call | intros _].
  apply returns_measure.
Qed.

Lemma getitem_in_range (l : list float) (i : nat) :
  (i < List.length l)%nat -> exists x, getitem l i = Ok x.
Proof.
  intros Hi. unfold getitem.
  destruct (nth_error l i) as [x |] eqn:Hx; [exists x; reflexivity |].
  apply nth_error_None in Hx. lia.
Qed.

(** X16. With [rate_type] 'None', or 'Steps' and an int [rate_value] n
    that divides without error, and an engine that answers every call, the
    function returns for every list of peaks that is not empty. *)
Lemma driver_returns (definition : list pyval) (peak_points : list float)
    (rate_type : string) (rate_value : pyval) (matTag : Z)
    (plot_stress_strain compression_positive : bool) (n : Z) (y : float) :
  peak_points <> [] ->
  (rate_type = "None"%string /\ n = 1%Z)
  \/ (rate_type = "Steps"%string /\ rate_value = VInt n) ->
  float_of_int n = Ok y ->
  (y =? 0)%float = false ->
  returns h (uniaxial_material_analysis definition peak_points rate_type
               rate_value matTag plot_stress_strain compression_positive).
Proof.
  intros Hne Hmode Hy Hy0.
  assert (Hsteps : forall i,
             num_steps_of rate_type rate_value peak_points i = Ret (VInt n)).
  { intros i. unfold num_steps_of.
    destruct Hmode as [[Hr Hn] | [Hr Hv]]; rewrite Hr;
      [rewrite Hn | rewrite Hv]; reflexivity. }
  unfold uniaxial_material_analysis, ops.
  do 15 (apply returns_bind; [apply returns_call | intros _]).
  destruct peak_points as [| p0 peaks]; [contradiction |].
  apply returns_bind; [apply (returns_lift _ p0); reflexivity | intros q0].
  do 3 (apply returns_bind; [apply returns_call | intros _]).
  apply returns_bind; [apply returns_measure | intros r0].
  apply returns_bind.
  - apply returns_for_each. intros i r Hi.
    apply in_seq in Hi. cbn [List.length] in Hi.
    unfold peak_body. rewrite Hsteps. cbn [bind].
    destruct (getitem_in_range (p0 :: peaks) (i + 1)) as [b Hb];
      [cbn [List.length]; lia |].
    destruct (getitem_in_range (p0 :: peaks) i) as [a Ha];
      [cbn [List.length]; lia |].
    apply returns_bind; [apply (returns_lift _ b Hb) | intros b'].
    apply returns_bind; [apply (returns_lift _ a Ha) | intros a'].
    apply returns_bind.
    + apply (returns_lift _ ((b' - a') / y)%float).
      unfold float_truediv. rewrite Hy. cbn [rbind]. unfold truediv.
      rewrite Hy0. reflexivity.
    + intros incr. cbn [range lift bind].
      apply returns_for_each. intros j r1 _. apply returns_step_body.
  - intros r. apply returns_bind; [| intros _; apply returns_ret].
    destruct plot_stress_strain; [| apply returns_ret].
    unfold plot, plt.
    do 4 (apply returns_bind; [apply returns_call | intros _]).
    apply returns_call.
Qed.

End Returns.

End UniaxialFacts.

(** ** effective_length_factor: the shape of a call *)

Section CallShape.

Import PyFloat EffectiveLength FloatFacts.
Open Scope float_scope.

Lemma recognized_or_not (sidesway : string) :
  (exists c, sidesway = condition_name c)
  \/ (sidesway <> "inhibited" /\ sidesway <> "uninhibited")%string.
Proof.
  destruct (String.eqb_spec sidesway "inhibited") as [-> | H1];
    [left; exists Inhibited; reflexivity |].
  destruct (String.eqb_spec sidesway "uninhibited") as [-> | H2];
    [left; exists Uninhibited; reflexivity | right; split; assumption].
Qed.

(** X1. Whatever the condition and the ratios, a call of
    [effective_length_factor] ends in one of three ways: a value returned at
    once and the root finder left alone, the ValueError of a condition that is
    not recognized, or the outcome of exactly one call of the root finder,
    its answer returned unchanged and its error passed on. *)
Theorem one_call_at_most {S : Type} (h : handler solverE S)
    (sidesway : string) (GA GB : float) (s : S) :
  (exists K,
      effective_length_factor sidesway GA GB = Ret K
      /\ run h (effective_length_factor sidesway GA GB) s = Ok (K, s))
  \/ ((sidesway <> "inhibited" /\ sidesway <> "uninhibited")%string
      /\ run h (effective_length_factor sidesway GA GB) s
         = Raise (ValueError [Text "Unrecognized sidesway value "; Repr sidesway]))
  \/ (exists c f args,
        sidesway = condition_name c
        /\ effective_length_factor sidesway GA GB
           = brentq f (spec_bracket c) args
        /\ run h (effective_length_factor sidesway GA GB) s
           = h _ (Brentq f (fst (spec_bracket c)) (snd (spec_bracket c)) args) s).
Proof.
  destruct (recognized_or_not sidesway) as [[c ->] | [H1 H2]].
  - destruct (degenerate GA GB) eqn:Hd.
    + left. destruct (quick_return c GA GB Hd) as [K HK].
      exists K. rewrite HK. split; reflexivity.
    + right. right. exists c.
      rewrite (past_quick_returns c GA GB Hd).
      destruct (surrogate GA =? 0), (surrogate GB =? 0);
        eexists; eexists; (split; [reflexivity |]);
        (split; [reflexivity | apply run_brentq]).
  - right. left. split; [split; assumption |].
    unfold effective_length_factor, select_case.
    apply String.eqb_neq in H1. apply String.eqb_neq in H2.
    rewrite H1, H2. reflexivity.
Qed.

Lemma nan_not_equal (x y : float) : is_nan x = true -> (x =? y) = false.
Proof.
  unfold is_nan. rewrite !eqb_spec. unfold SFeqb.
  destruct (Prim2SF x) as [s | s | | s m e]; cbn [SFcompare negb].
  - discriminate.
  - destruct s; discriminate.
  - reflexivity.
  - rewrite Z.compare_refl.
    destruct s; rewrite Pos.compare_cont_refl; discriminate.
Qed.

(** X2. A ratio that is not a number is never caught by the quick returns:
    with a recognized condition it goes to the root finder as it is, as a
    parameter of the nomogram equation, and no error is raised before the
    root finder is called. *)
Theorem nan_ratio_reaches_solver (c : SidesCondition) (GA GB : float) :
  is_nan GA = true \/ is_nan GB = true ->
  exists f args,
    effective_length_factor (condition_name c) GA GB
      = brentq f (spec_bracket c) args
    /\ (is_nan GA = true -> In GA args)
    /\ (is_nan GB = true -> In GB args).
Proof.
  intros Hnan.
  assert (Hd : degenerate GA GB = false).
  { unfold degenerate. destruct Hnan as [H | H];
      rewrite !(nan_not_equal _ _ H); rewrite ?andb_false_r; reflexivity. }
  rewrite (past_quick_returns c GA GB Hd).
  assert (Hs : forall G, is_nan G = true ->
                         surrogate G = G /\ (surrogate G =? 0) = false).
  { intros G H. rewrite (surrogate_not_inf G (nan_not_equal G inf H)).
    split; [reflexivity | apply nan_not_equal; exact H]. }
  destruct (surrogate GA =? 0) eqn:HA, (surrogate GB =? 0) eqn:HB;
    eexists; eexists; (split; [reflexivity |]); split; intros H;
    destruct (Hs _ H) as [Heq Hnz];
    try congruence; rewrite Heq; cbn [In]; auto.
Qed.

Lemma nan_ratio_reaches_solver_witness :
  (is_nan nan = true \/ is_nan 2 = true)
  /\ exists f args,
       effective_length_factor "uninhibited" nan 2
         = brentq f (1, 1e10) args
       /\ (is_nan nan = true -> In nan args)
       /\ (is_nan 2 = true -> In 2 args).
Proof.
  split; [left; reflexivity |].
  apply (nan_ratio_reaches_solver Uninhibited nan 2). left. reflexivity.
Defined.

(** X4. Exchanging GA and GB leaves the quick return and the error as they
    are, and changes the call of the root finder in one thing only: the same
    function and the same bracket, the parameters in the reverse order. *)
Theorem exchanged_ends_call (sidesway : string) (GA GB : float) :
  (forall K, effective_length_factor sidesway GA GB = Ret K ->
             effective_length_factor sidesway GB GA = Ret K)
  /\ (forall e, effective_length_factor sidesway GA GB = Throw e ->
                effective_length_factor sidesway GB GA = Throw e)
  /\ (forall f br args,
        first_call (effective_length_factor sidesway GA GB) = Some (f, br, args) ->
        first_call (effective_length_factor sidesway GB GA)
          = Some (f, br, rev args)).
Proof.
  rewrite (exchanged_ends sidesway GA GB).
  destruct (effective_length_factor sidesway GA GB) as [K0 | e0 | X ev k];
    cbn [with_args_reversed first_call].
  - split; [intros K H; exact H |]. split; intros; discriminate.
  - split; [intros; discriminate |].
    split; [intros e H; exact H | intros; discriminate].
  - split; [intros; discriminate |]. split; [intros; discriminate |].
    intros f br args. destruct ev as [f0 a b args0].
    cbn [first_call]. intros H. injection H as <- <- <-. reflexivity.
Qed.

(** Inside the bracket of sidesway uninhibited, and with a positive
    ratio, the two divisions by K and by G do not fail. *)
Lemma one_le_not_zero (K : float) : (1 <=? K) = true -> (K =? 0) = false.
Proof. by_spec. by_class K. Qed.

Variable tan : float -> result float.
(** X5. For K in the bracket of sidesway uninhibited (K at least 1) and a
    positive ratio G, the reduced uninhibited equation divides neither by a
    zero K nor by a zero G: it fails only if [tan] fails or answers zero, and
    its value is -6/G - pK/tan(pK) with pK = pi/K. *)
Theorem reduced_uninhibited_in_bracket (K G : float) :
  (1 <=? K) = true ->
  (0 <? G) = true ->
  _sidesway_uninhibited_one_zero tan K G
    = match tan (pi / K) with
      | Ok t => if t =? 0 then Raise ZeroDivisionError
                else Ok (-6 / G - pi / K / t)
      | Raise e => Raise e
      end.
Proof.
  intros HK HG. unfold _sidesway_uninhibited_one_zero, truediv.
  rewrite (one_le_not_zero K HK), (positive_not_zero G HG). cbn [rbind].
  destruct (tan (pi / K)) as [t | e]; cbn [rbind]; [| reflexivity].
  destruct (t =? 0); reflexivity.
Qed.

End CallShape.

Lemma reduced_uninhibited_in_bracket_witness :
  ((1 <=? 1.5) = true /\ (0 <? 4.5) = true)%float
  /\ EffectiveLength._sidesway_uninhibited_one_zero
       EffectiveLength.sample_tan 1.5 4.5
     = Ok (-6 / 4.5 - PyFloat.pi / 1.5 / (PyFloat.pi / 1.5))%float.
Proof.
  split; [split; reflexivity |].
  apply (reduced_uninhibited_in_bracket EffectiveLength.sample_tan 1.5 4.5);
    reflexivity.
Defined.

(** ** effective_length_factor: the outcome with the ends exchanged *)

Section SymmetricOutcome.

Import PyFloat EffectiveLength FloatFacts.
Open Scope float_scope.

Lemma sample_root_finder_values (g g' : float -> result float) (a b : float) :
  (forall x, g x = g' x) ->
  sample_root_finder g a b = sample_root_finder g' a b.
Proof.
  intros H. unfold sample_root_finder. rewrite (H a), (H b). reflexivity.
Qed.

Variable tan : float -> result float.
Variable pow : float -> float -> result float.
Variable root_finder : (float -> result float) -> float -> float -> result float.
Hypothesis root_finder_values :
  forall (g g' : float -> result float) (a b : float),
    (forall x, g x = g' x) -> root_finder g a b = root_finder g' a b.

(** X6. With sidesway inhibited and a root finder that reads its objective
    by its values, the outcome does not depend on which end is which when a
    quick return applies, when one of the two ratios is zero, or when the
    product 0.25 GA GB of the full equation is the same double in both
    orders. *)
Theorem inhibited_symmetric (GA GB : float) :
  degenerate GA GB = true
  \/ (surrogate GA =? 0) = true
  \/ (surrogate GB =? 0) = true
  \/ 0.25 * surrogate GB * surrogate GA = 0.25 * surrogate GA * surrogate GB ->
  run (brentq_handler tan pow root_finder)
      (effective_length_factor "inhibited" GB GA) tt
  = run (brentq_handler tan pow root_finder)
      (effective_length_factor "inhibited" GA GB) tt.
Proof.
  intros Hcase. rewrite (exchanged_ends "inhibited" GA GB).
  destruct (degenerate GA GB) eqn:Hd.
  { destruct (quick_return Inhibited GA GB Hd) as [K HK].
    cbn [condition_name] in HK. rewrite HK. reflexivity. }
  pose proof (past_quick_returns Inhibited GA GB Hd) as HE.
  cbn [condition_name] in HE. rewrite HE.
  destruct (surrogate GA =? 0) eqn:HA; [| destruct (surrogate GB =? 0) eqn:HB];
    cbn [with_args_reversed brentq call run brentq_handler rbind
         reduced_equation full_equation];
    (erewrite root_finder_values;
     [reflexivity | intros x; apply objective_exchanged]);
    try (intros Hf; discriminate).
  intros _ a b Hab. injection Hab as <- <-.
  destruct Hcase as [H | [H | [H | H]]]; try discriminate. exact H.
Qed.

End SymmetricOutcome.

Lemma inhibited_symmetric_witness :
  (EffectiveLength.degenerate 0 0.6067769722307135 = true
   \/ (EffectiveLength.surrogate 0 =? 0) = true
   \/ (EffectiveLength.surrogate 0.6067769722307135 =? 0) = true
   \/ 0.25 * EffectiveLength.surrogate 0.6067769722307135
        * EffectiveLength.surrogate 0
      = 0.25 * EffectiveLength.surrogate 0
        * EffectiveLength.surrogate 0.6067769722307135)%float
  /\ run (EffectiveLength.brentq_handler EffectiveLength.sample_tan
            EffectiveLength.sample_pow EffectiveLength.sample_root_finder)
       (EffectiveLength.effective_length_factor "inhibited"
          0.6067769722307135 0) tt
     = run (EffectiveLength.brentq_handler EffectiveLength.sample_tan
              EffectiveLength.sample_pow EffectiveLength.sample_root_finder)
         (EffectiveLength.effective_length_factor "inhibited"
            0 0.6067769722307135) tt.
Proof.
  split; [right; left; reflexivity |].
  apply (inhibited_symmetric EffectiveLength.sample_tan
           EffectiveLength.sample_pow EffectiveLength.sample_root_finder
           sample_root_finder_values 0 0.6067769722307135).
  right. left. reflexivity.
Defined.

Lemma uninhibited_symmetric_witness :
  "uninhibited"%string <> "inhibited"%string
  /\ run (EffectiveLength.brentq_handler EffectiveLength.sample_tan
            EffectiveLength.sample_pow EffectiveLength.sample_root_finder)
       (EffectiveLength.effective_length_factor "uninhibited" 3 2) tt
     = run (EffectiveLength.brentq_handler EffectiveLength.sample_tan
              EffectiveLength.sample_pow EffectiveLength.sample_root_finder)
         (EffectiveLength.effective_length_factor "uninhibited" 2 3) tt.
Proof.
  split; [discriminate |].
  apply (uninhibited_symmetric EffectiveLength.sample_tan
           EffectiveLength.sample_pow EffectiveLength.sample_root_finder
           sample_root_finder_values "uninhibited" 2 3).
  discriminate.
Defined.

(** ** The two wrappers *)

Section Wrappers.

Import PyFloat EffectiveLength FloatFacts.
Open Scope float_scope.

(** X15. The two wrappers name the condition themselves, so that they never
    raise the ValueError of a condition that is not recognized: each either
    returns at once or makes one call of the root finder, on an equation
    and over the bracket of its own condition. *)
Theorem wrappers_never_reject (GA GB : float) :
  ((exists K, sidesway_inhibited_effective_length_factor GA GB = Ret K)
   \/ exists args,
        sidesway_inhibited_effective_length_factor GA GB
          = brentq fn_sidesway_inhibited_one_zero (0.5, just_below_one) args
        \/ sidesway_inhibited_effective_length_factor GA GB
          = brentq fn_sidesway_inhibited (0.5, just_below_one) args)
  /\ ((exists K, sidesway_uninhibited_effective_length_factor GA GB = Ret K)
      \/ exists args,
           sidesway_uninhibited_effective_length_factor GA GB
             = brentq fn_sidesway_uninhibited_one_zero (1, 1e10) args
           \/ sidesway_uninhibited_effective_length_factor GA GB
             = brentq fn_sidesway_uninhibited (1, 1e10) args).
Proof.
  unfold sidesway_inhibited_effective_length_factor,
    sidesway_uninhibited_effective_length_factor.
  destruct (degenerate GA GB) eqn:Hd.
  - split; left.
    + exact (quick_return Inhibited GA GB Hd).
    + exact (quick_return Uninhibited GA GB Hd).
  - pose proof (past_quick_returns Inhibited GA GB Hd) as HI.
    pose proof (past_quick_returns Uninhibited GA GB Hd) as HU.
    cbn [condition_name] in HI, HU. rewrite HI, HU.
    split; right;
      destruct (surrogate GA =? 0), (surrogate GB =? 0);
      eexists; (left; reflexivity) || (right; reflexivity).
Qed.

End Wrappers.

(** ** Reasoning on monitored runs *)

Section Paths.

Context {E : Type -> Type} {G : Type} (m : monitor E G).

Lemma every_path_impl {A : Type} (P Q : G -> A -> Prop) (g : G) (p : prog E A) :
  (forall g' a, P g' a -> Q g' a) -> every_path m P g p -> every_path m Q g p.
Proof.
  intros HPQ. revert g.
  induction p as [a | e | X ev k IH]; intros g; cbn [every_path].
  - apply HPQ.
  - trivial.
  - intros H x. apply IH. apply H.
Qed.

Lemma every_path_bind {A B : Type} (P : G -> B -> Prop) (g : G)
    (p : prog E A) (f : A -> prog E B) :
  every_path m (fun g' a => every_path m P g' (f a)) g p ->
  every_path m P g (bind p f).
Proof.
  revert g. induction p as [a | e | X ev k IH]; intros g;
    cbn [every_path bind].
  - trivial.
  - trivial.
  - intros H x. apply IH. apply H.
Qed.

Lemma every_path_call {A X : Type} (P : G -> A -> Prop) (g : G) (ev : E X)
    (f : X -> prog E A) :
  (forall x, every_path m P (m X ev x g) (f x)) ->
  every_path m P g (bind (call ev) f).
Proof. intros H. cbn [call bind every_path]. exact H. Qed.

(** What holds on every path holds at the end of any monitored run. *)
Lemma every_path_run {S A : Type} (h : handler E S) (P : G -> A -> Prop)
    (p : prog E A) (s s' : S) (g g' : G) (a : A) :
  every_path m P g p ->
  run (monitored m h) p (s, g) = Ok (a, (s', g')) ->
  P g' a.
Proof.
  revert s g. induction p as [a0 | e | X ev k IH]; cbn [every_path run];
    intros s g HP Hrun.
  - injection Hrun as <- _ <-. exact HP.
  - discriminate.
  - unfold monitored in Hrun at 1. cbn [fst snd] in Hrun.
    destruct (h X ev s) as [[x s1] | e]; [| discriminate].
    apply (IH x s1 (m X ev x g)); [apply HP | exact Hrun].
Qed.

(** A monitor only watches: a run that returns does so under the monitor
    too, with the same value and the same state. *)
Lemma run_monitored {S A : Type} (h : handler E S) (p : prog E A)
    (s s' : S) (g : G) (a : A) :
  run h p s = Ok (a, s') ->
  exists g', run (monitored m h) p (s, g) = Ok (a, (s', g')).
Proof.
  revert s g. induction p as [a0 | e | X ev k IH]; cbn [run]; intros s g Hrun.
  - injection Hrun as <- <-. exists g. reflexivity.
  - discriminate.
  - unfold monitored at 1. cbn [fst snd].
    destruct (h X ev s) as [[x s1] | e]; [| discriminate].
    apply IH. exact Hrun.
Qed.

End Paths.

(** ** uniaxial_material_analysis: the journal of a run *)

Section Journal.

Import PyFloat Uniaxial.

Lemma every_path_lift {A B : Type} (P : list entry -> B -> Prop)
    (j : list entry) (r : result A) (f : A -> prog engineE B) :
  (forall a, r = Ok a -> every_path journal P j (f a)) ->
  every_path journal P j (bind (lift r) f).
Proof.
  intros H. destruct r as [a | e]; cbn [lift bind every_path]; auto.
Qed.

(** A loop keeps, on every path, what its body keeps of the items done. *)
Lemma for_each_path {A T : Type} (Inv : list A -> list entry -> T -> Prop)
    (body : A -> T -> prog engineE T) (l : list A) :
  forall (done : list A) (j : list entry) (t : T),
    Inv done j t ->
    (forall done0 a j0 t0,
        Inv done0 j0 t0 ->
        every_path journal (Inv (done0 ++ [a])) j0 (body a t0)) ->
    every_path journal (Inv (done ++ l)) j (for_each l body t).
Proof.
  induction l as [| a l IH]; intros done j t Ht Hbody; cbn [for_each].
  - rewrite app_nil_r. exact Ht.
  - apply every_path_bind.
    apply (every_path_impl journal (Inv (done ++ [a]))); [| apply Hbody; exact Ht].
    intros j1 t1 Ht1.
    replace (done ++ a :: l) with ((done ++ [a]) ++ l)
      by (rewrite <- app_assoc; reflexivity).
    apply IH; assumption.
Qed.

Lemma increments_app (j j' : list entry) :
  increments (j ++ j') = increments j ++ increments j'.
Proof. apply flat_map_app. Qed.

Lemma times_app (j j' : list entry) : times (j ++ j') = times j ++ times j'.
Proof. apply flat_map_app. Qed.

Lemma disps_app (j j' : list entry) : disps (j ++ j') = disps j ++ disps j'.
Proof. apply flat_map_app. Qed.

Lemma analyses_app (j j' : list entry) :
  analyses (j ++ j') = (analyses j + analyses j')%nat.
Proof. unfold analyses. rewrite filter_app, length_app. reflexivity. Qed.

(** One step: an increment handed over, one analysis, one pair of
    readings recorded. *)
Lemma step_body_agrees (compression_positive : bool) (incr : float)
    (k n : nat) (incs : list float) (j : list entry) (r : record) :
  journal_agrees compression_positive n incs j r ->
  every_path journal
    (journal_agrees compression_positive (Datatypes.S n) (incs ++ [incr]))
    j (step_body compression_positive incr k r).
Proof.
  intros [Hr [Ht [Ha [Hn Hi]]]]. unfold step_body, ops, measure.
  apply every_path_call. intros u1.
  apply every_path_call. intros u2.
  destruct compression_positive;
    (apply every_path_call; intros t);
    (apply every_path_call; intros d);
    cbn [every_path journal]; unfold journal_agrees;
    rewrite !times_app, !disps_app, !analyses_app, !increments_app;
    cbn [times disps analyses increments flat_map time_of disp_of
         increment_of is_analyze filter List.length app];
    cbn [String.eqb Ascii.eqb Bool.eqb];
    rewrite ?app_nil_r, ?Nat.add_0_r, !length_app, !map_app;
    cbn [List.length map]; rewrite Hr; cbn [fst snd signed];
    repeat split; try congruence; lia.
Qed.

Lemma steps_agree (compression_positive : bool) (incr : float)
    (js : list nat) (n : nat) (incs : list float) (j : list entry)
    (r : record) :
  journal_agrees compression_positive n incs j r ->
  every_path journal
    (journal_agrees compression_positive (n + List.length js)
       (incs ++ repeat incr (List.length js)))
    j (for_each js (step_body compression_positive incr) r).
Proof.
  intros H.
  apply (for_each_path
           (fun done => journal_agrees compression_positive
                          (n + List.length done)
                          (incs ++ repeat incr (List.length done)))
           (step_body compression_positive incr) js [] j r).
  - cbn [List.length repeat]. rewrite Nat.add_0_r, app_nil_r. exact H.
  - intros done k j0 r0 H0. rewrite length_app. cbn [List.length].
    rewrite Nat.add_1_r, Nat.add_succ_r. cbn [repeat].
    rewrite repeat_cons, app_assoc.
    apply step_body_agrees. exact H0.
Qed.

Lemma as_result_lift {A : Type} (r : result A) : as_result (lift r) = r.
Proof. destruct r; reflexivity. Qed.

(** The number of steps is worked out without a call. *)
Lemma num_steps_of_pure (rate_type : string) (rate_value : pyval)
    (peak_points : list float) (i : nat) :
  num_steps_of rate_type rate_value peak_points i
    = lift (as_result (num_steps_of rate_type rate_value peak_points i)).
Proof.
  unfold num_steps_of.
  destruct (String.eqb rate_type "None"); [reflexivity |].
  destruct (String.eqb rate_type "StrainRate");
    [rewrite as_result_lift; reflexivity |].
  destruct (String.eqb rate_type "Steps"); reflexivity.
Qed.

(** An interval is its plan, then that many equal steps. *)
Lemma peak_body_plan (peak_points : list float) (rate_type : string)
    (rate_value : pyval) (compression_positive : bool) (i : nat) (r : record) :
  peak_body peak_points rate_type rate_value compression_positive i r
    = match interval_plan peak_points rate_type rate_value i with
      | Ok (incr, n) =>
          for_each (seq 0 n) (step_body compression_positive incr) r
      | Raise e => Throw e
      end.
Proof.
  unfold peak_body, interval_plan.
  pose proof (num_steps_of_pure rate_type rate_value peak_points i) as HN.
  destruct (as_result (num_steps_of rate_type rate_value peak_points i))
    as [v | e]; rewrite HN; cbn [lift bind rbind]; [| reflexivity].
  destruct (getitem peak_points (i + 1)) as [b | e];
    cbn [lift bind rbind]; [| reflexivity].
  destruct (getitem peak_points i) as [a | e];
    cbn [lift bind rbind]; [| reflexivity].
  destruct (float_truediv (b - a) v) as [incr | e];
    cbn [lift bind rbind]; [| reflexivity].
  destruct v; cbn [range lift bind rbind]; try reflexivity.
  rewrite length_seq. reflexivity.
Qed.

Lemma peak_body_agrees (peak_points : list float) (rate_type : string)
    (rate_value : pyval) (compression_positive : bool) (i n : nat)
    (incs : list float) (j : list entry) (r : record) :
  journal_agrees compression_positive n incs j r ->
  every_path journal
    (journal_agrees compression_positive
       (n + interval_steps peak_points rate_type rate_value i)
       (incs ++ interval_increments peak_points rate_type rate_value i))
    j (peak_body peak_points rate_type rate_value compression_positive i r).
Proof.
  intros H. rewrite peak_body_plan.
  unfold interval_steps, interval_increments.
  destruct (interval_plan peak_points rate_type rate_value i)
    as [[incr k] | e]; [| exact I].
  pose proof (steps_agree compression_positive incr (seq 0 k) n incs j r H)
    as Hs.
  rewrite length_seq in Hs. exact Hs.
Qed.

Lemma plotted_agrees (compression_positive : bool) (n : nat)
    (incs : list float) (j : list entry) (r : record) (c : string)
    (args : list pyval) :
  journal_agrees compression_positive n incs j r ->
  journal_agrees compression_positive n incs (j ++ [Plotted c args]) r.
Proof.
  unfold journal_agrees.
  rewrite !times_app, !disps_app, !analyses_app, !increments_app.
  cbn [times disps analyses increments flat_map time_of disp_of
       increment_of is_analyze filter List.length app].
  rewrite !app_nil_r, Nat.add_0_r. trivial.
Qed.

(** The journal and the record of the whole function. *)
Lemma journal_of_run
    (definition : list pyval) (peak_points : list float)
    (rate_type : string) (rate_value : pyval) (matTag : Z)
    (plot_stress_strain compression_positive : bool) :
  every_path journal
    (journal_agrees compression_positive
       (1 + steps_over peak_points rate_type rate_value
              (seq 0 (List.length peak_points - 1)))
       (firstn 1 peak_points
          ++ increments_over peak_points rate_type rate_value
               (seq 0 (List.length peak_points - 1))))
    []
    (uniaxial_material_analysis definition peak_points rate_type rate_value
       matTag plot_stress_strain compression_positive).
Proof.
  unfold uniaxial_material_analysis, ops.
  do 15 (apply every_path_call; intros ?).
  apply every_path_lift. intros p0 Hp0.
  destruct peak_points as [| p peaks]; [discriminate |].
  cbn [getitem nth_error] in Hp0. injection Hp0 as ->.
  do 3 (apply every_path_call; intros ?).
  apply every_path_bind.
  apply (every_path_impl journal
           (journal_agrees compression_positive 1 [p0])).
  2:{ unfold measure.
      destruct compression_positive;
        (apply every_path_call; intros t);
        (apply every_path_call; intros d);
        cbn [every_path]; repeat split; reflexivity. }
  intros j0 r0 H0.
  apply every_path_bind.
  eapply every_path_impl;
    [| apply (for_each_path
                (fun done =>
                   journal_agrees compression_positive
                     (1 + steps_over (p0 :: peaks) rate_type rate_value done)
                     (p0 :: increments_over (p0 :: peaks) rate_type
                              rate_value done))
                (peak_body (p0 :: peaks) rate_type rate_value
                   compression_positive)
                (seq 0 (List.length (p0 :: peaks) - 1)) [] j0 r0)].
  - intros j1 r1 H1. cbn [app] in H1. cbn [firstn app].
    apply every_path_bind.
    destruct plot_stress_strain; [| cbn [every_path]; exact H1].
    unfold plot, plt.
    do 4 (apply every_path_call; intros ?).
    cbn [call every_path]. intros ?. cbn [journal].
    repeat apply plotted_agrees. exact H1.
  - exact H0.
  - intros done i j1 r1 H1.
    unfold steps_over, increments_over.
    rewrite map_app, list_sum_app, flat_map_app.
    cbn [map list_sum fold_right flat_map].
    rewrite Nat.add_0_r, app_nil_r, Nat.add_assoc.
    apply (peak_body_agrees (p0 :: peaks) rate_type rate_value
             compression_positive i _ (p0 :: _) j1 r1 H1).
Qed.

(** X7. The lists returned are the readings of the engine, in the order
    they were taken: [strain] holds the displacements read at node 2 and
    [stress] the times read, each negated when compression is positive;
    nothing else is recorded and no reading is dropped. *)
Theorem record_is_readings {S : Type} (h : handler engineE S)
    (definition : list pyval) (peak_points : list float)
    (rate_type : string) (rate_value : pyval) (matTag : Z)
    (plot_stress_strain compression_positive : bool)
    (s s' : S) (strain stress : list float) (j : list entry) :
  run (monitored journal h)
      (uniaxial_material_analysis definition peak_points rate_type
         rate_value matTag plot_stress_strain compression_positive) (s, [])
    = Ok ((strain, stress), (s', j)) ->
  strain = map (signed compression_positive) (disps j)
  /\ stress = map (signed compression_positive) (times j).
Proof.
  intros Hrun.
  pose proof (every_path_run journal h _ _ s s' [] j (strain, stress)
                (journal_of_run definition peak_points rate_type rate_value
                   matTag plot_stress_strain compression_positive) Hrun)
    as [Hr _].
  injection Hr as -> ->. split; reflexivity.
Qed.

Lemma record_is_readings_witness :
  match run (monitored journal idle_engine)
          (uniaxial_material_analysis [VStr "Elastic"; VInt 1; VFloat 29000]
             [0; 1]%float "None" VNone 1 false true) (tt, [])
  with
  | Ok ((strain, stress), (_, j)) =>
      strain = map (signed true) (disps j)
      /\ stress = map (signed true) (times j)
  | Raise _ => False
  end.
Proof.
  destruct (run (monitored journal idle_engine)
              (uniaxial_material_analysis
                 [VStr "Elastic"; VInt 1; VFloat 29000]
                 [0; 1]%float "None" VNone 1 false true) (tt, []))
    as [[[strain stress] [u j]] | e] eqn:Hrun.
  - destruct u.
    apply (record_is_readings idle_engine
             [VStr "Elastic"; VInt 1; VFloat 29000]
             [0; 1]%float "None" VNone 1 false true tt tt strain stress j).
    exact Hrun.
  - vm_compute in Hrun. discriminate.
Defined.

(** X8. One analysis step is run for every recorded point: in a run that
    returns, the number of [analyze] commands sent to the engine is the
    length of each of the two lists. *)
Theorem one_analysis_per_point {S : Type} (h : handler engineE S)
    (definition : list pyval) (peak_points : list float)
    (rate_type : string) (rate_value : pyval) (matTag : Z)
    (plot_stress_strain compression_positive : bool)
    (s s' : S) (strain stress : list float) (j : list entry) :
  run (monitored journal h)
      (uniaxial_material_analysis definition peak_points rate_type
         rate_value matTag plot_stress_strain compression_positive) (s, [])
    = Ok ((strain, stress), (s', j)) ->
  analyses j = List.length strain /\ analyses j = List.length stress.
Proof.
  intros Hrun.
  pose proof (every_path_run journal h _ _ s s' [] j (strain, stress)
                (journal_of_run definition peak_points rate_type rate_value
                   matTag plot_stress_strain compression_positive) Hrun)
    as [Hr [Ht [Ha _]]].
  injection Hr as -> ->. rewrite !length_map. split; congruence.
Qed.

Lemma one_analysis_per_point_witness :
  match run (monitored journal idle_engine)
          (uniaxial_material_analysis [VStr "Elastic"; VInt 1; VFloat 29000]
             [0; 0.5; 1]%float "Steps" (VInt 3) 1 false false) (tt, [])
  with
  | Ok ((strain, stress), (_, j)) =>
      analyses j = List.length strain /\ analyses j = List.length stress
  | Raise _ => False
  end.
Proof.
  destruct (run (monitored journal idle_engine)
              (uniaxial_material_analysis
                 [VStr "Elastic"; VInt 1; VFloat 29000]
                 [0; 0.5; 1]%float "Steps" (VInt 3) 1 false false) (tt, []))
    as [[[strain stress] [u j]] | e] eqn:Hrun.
  - destruct u.
    apply (one_analysis_per_point idle_engine
             [VStr "Elastic"; VInt 1; VFloat 29000]
             [0; 0.5; 1]%float "Steps" (VInt 3) 1 false false
             tt tt strain stress j).
    exact Hrun.
  - vm_compute in Hrun. discriminate.
Defined.

(** X9. Whatever the rate type, the lists returned have one entry for the
    first analysis and one more for every step of every interval between
    consecutive peaks, the steps of an interval being the number the loop
    works out for it ([1], [ceil(abs(difference) / rate_value)] or
    [rate_value]). *)
Theorem recorded_points {S : Type} (h : handler engineE S)
    (definition : list pyval) (peak_points : list float)
    (rate_type : string) (rate_value : pyval) (matTag : Z)
    (plot_stress_strain compression_positive : bool)
    (s s' : S) (strain stress : list float) :
  run h (uniaxial_material_analysis definition peak_points rate_type
           rate_value matTag plot_stress_strain compression_positive) s
    = Ok ((strain, stress), s') ->
  List.length strain
    = (1 + steps_over peak_points rate_type rate_value
             (seq 0 (List.length peak_points - 1)))%nat
  /\ List.length stress = List.length strain.
Proof.
  intros Hrun.
  destruct (run_monitored journal h _ s s' [] (strain, stress) Hrun)
    as [j Hj].
  pose proof (every_path_run journal h _ _ s s' [] j (strain, stress)
                (journal_of_run definition peak_points rate_type rate_value
                   matTag plot_stress_strain compression_positive) Hj)
    as [Hr [Ht [_ [Hn _]]]].
  injection Hr as -> ->. rewrite !length_map. split; congruence.
Qed.

Lemma recorded_points_witness :
  run idle_engine
    (uniaxial_material_analysis [VStr "Elastic"; VInt 1; VFloat 29000]
       [0; 0.25; 1]%float "StrainRate" (VFloat 0.25) 1 false false) tt
    = Ok (([0; 0; 0; 0; 0], [0; 0; 0; 0; 0])%float, tt)
  /\ List.length [0; 0; 0; 0; 0]%float
     = (1 + steps_over [0; 0.25; 1]%float "StrainRate" (VFloat 0.25)
              (seq 0 (List.length [0; 0.25; 1]%float - 1)))%nat
  /\ List.length [0; 0; 0; 0; 0]%float = List.length [0; 0; 0; 0; 0]%float.
Proof.
  split; [reflexivity |].
  apply (recorded_points idle_engine [VStr "Elastic"; VInt 1; VFloat 29000]
           [0; 0.25; 1]%float "StrainRate" (VFloat 0.25) 1 false false tt tt).
  reflexivity.
Defined.

(** The plan of an interval when the number of steps is the same [n] for
    all of them: the difference of its two peaks divided by [n]. *)
Lemma plan_of_equal_steps (peak_points : list float) (rate_type : string)
    (rate_value : pyval) (n : Z) (y : float) (i : nat) (a b : float) :
  (rate_type = "None"%string /\ n = 1%Z)
  \/ (rate_type = "Steps"%string /\ rate_value = VInt n) ->
  float_of_int n = Ok y ->
  (y =? 0)%float = false ->
  nth_error peak_points i = Some a ->
  nth_error peak_points (i + 1) = Some b ->
  interval_plan peak_points rate_type rate_value i
    = Ok (((b - a) / y)%float, Z.to_nat n).
Proof.
  intros Hmode Hy Hy0 Ha Hb. unfold interval_plan, num_steps_of, getitem.
  rewrite Ha, Hb.
  destruct Hmode as [[Hr Hn] | [Hr Hv]]; rewrite Hr;
    [rewrite Hn in * | rewrite Hv];
    cbn [String.eqb Ascii.eqb Bool.eqb as_result rbind float_truediv range];
    rewrite Hy; cbn [rbind]; unfold truediv; rewrite Hy0; cbn [rbind];
    rewrite length_seq; reflexivity.
Qed.

Lemma increments_of_equal_steps (rate_type : string) (rate_value : pyval)
    (n : Z) (y : float) :
  (rate_type = "None"%string /\ n = 1%Z)
  \/ (rate_type = "Steps"%string /\ rate_value = VInt n) ->
  float_of_int n = Ok y ->
  (y =? 0)%float = false ->
  forall (before peak_points : list float),
    increments_over (before ++ peak_points) rate_type rate_value
      (seq (List.length before) (List.length peak_points - 1))
    = equal_increments y (Z.to_nat n) peak_points.
Proof.
  intros Hmode Hy Hy0 before peak_points. revert before.
  induction peak_points as [| a rest IH]; intros before; [reflexivity |].
  destruct rest as [| b rest']; [reflexivity |].
  cbn [List.length Nat.sub seq equal_increments].
  unfold increments_over in *. cbn [flat_map].
  unfold interval_increments at 1.
  rewrite (plan_of_equal_steps (before ++ a :: b :: rest') rate_type
             rate_value n y (List.length before) a b Hmode Hy Hy0).
  - f_equal.
    specialize (IH (before ++ [a])).
    rewrite <- app_assoc in IH. cbn [app] in IH.
    rewrite length_app in IH. cbn [List.length] in IH.
    rewrite Nat.add_1_r in IH. cbn [Nat.sub] in IH.
    rewrite Nat.sub_0_r in IH. exact IH.
  - rewrite nth_error_app2 by lia. rewrite Nat.sub_diag. reflexivity.
  - rewrite nth_error_app2 by lia.
    replace (List.length before + 1 - List.length before)%nat with 1%nat by lia.
    reflexivity.
Qed.

(** X10. With [rate_type] 'None' (one step) or 'Steps' with an int
    [rate_value] n that divides without error, the displacement increments
    handed to the integrator are the first peak, then for each pair of
    consecutive peaks the difference divided by n, n times over. *)
Theorem equal_steps_protocol {S : Type} (h : handler engineE S)
    (definition : list pyval) (peak_points : list float)
    (rate_type : string) (rate_value : pyval) (matTag : Z)
    (plot_stress_strain compression_positive : bool)
    (n : Z) (y : float)
    (s s' : S) (strain stress : list float) (j : list entry) :
  (rate_type = "None"%string /\ n = 1%Z)
  \/ (rate_type = "Steps"%string /\ rate_value = VInt n) ->
  float_of_int n = Ok y ->
  (y =? 0)%float = false ->
  run (monitored journal h)
      (uniaxial_material_analysis definition peak_points rate_type
         rate_value matTag plot_stress_strain compression_positive) (s, [])
    = Ok ((strain, stress), (s', j)) ->
  increments j
    = firstn 1 peak_points ++ equal_increments y (Z.to_nat n) peak_points.
Proof.
  intros Hmode Hy Hy0 Hrun.
  pose proof (every_path_run journal h _ _ s s' [] j (strain, stress)
                (journal_of_run definition peak_points rate_type rate_value
                   matTag plot_stress_strain compression_positive) Hrun)
    as [_ [_ [_ [_ Hi]]]].
  rewrite Hi. f_equal.
  apply (increments_of_equal_steps rate_type rate_value n y Hmode Hy Hy0 []).
Qed.

Lemma equal_steps_protocol_witness :
  match run (monitored journal idle_engine)
          (uniaxial_material_analysis [VStr "Elastic"; VInt 1; VFloat 29000]
             [0.5; 1.5; 0]%float "Steps" (VInt 2) 1 false false) (tt, [])
  with
  | Ok (_, (_, j)) =>
      increments j = [0.5; 0.5; 0.5; -0.75; -0.75]%float
  | Raise _ => False
  end.
Proof.
  destruct (run (monitored journal idle_engine)
              (uniaxial_material_analysis
                 [VStr "Elastic"; VInt 1; VFloat 29000]
                 [0.5; 1.5; 0]%float "Steps" (VInt 2) 1 false false) (tt, []))
    as [[[strain stress] [u j]] | e] eqn:Hrun.
  - destruct u.
    apply (equal_steps_protocol idle_engine
             [VStr "Elastic"; VInt 1; VFloat 29000]
             [0.5; 1.5; 0]%float "Steps" (VInt 2) 1 false false 2 2%float
             tt tt strain stress j).
    + right. split; reflexivity.
    + reflexivity.
    + reflexivity.
    + exact Hrun.
  - vm_compute in Hrun. discriminate.
Defined.

End Journal.

(** ** uniaxial_material_analysis: the errors *)

Section Errors.

Import PyFloat Uniaxial FloatFacts.

Context {S : Type} (h : handler engineE S).
Hypothesis Hh : answers_all h.

Lemma raises_throw {A : Type} (e : exn) : raises h (@Throw engineE A e) e.
Proof. intros s. reflexivity. Qed.

Lemma raises_after {A B : Type} (m : prog engineE A) (f : A -> prog engineE B)
    (e : exn) :
  returns h m -> (forall a, raises h (f a) e) -> raises h (bind m f) e.
Proof.
  intros Hm Hf s. rewrite run_bind.
  destruct (Hm s) as [a [s1 ->]]. apply Hf.
Qed.

Lemma raises_at {A B : Type} (m : prog engineE A) (f : A -> prog engineE B)
    (e : exn) :
  raises h m e -> raises h (bind m f) e.
Proof. intros Hm s. rewrite run_bind, (Hm s). reflexivity. Qed.

(** X11. With an empty list of peak points the function raises IndexError,
    once the model is built and before any analysis: nothing is returned. *)
Theorem no_peak_raises (definition : list pyval) (rate_type : string)
    (rate_value : pyval) (matTag : Z)
    (plot_stress_strain compression_positive : bool) :
  raises h (uniaxial_material_analysis definition [] rate_type rate_value
              matTag plot_stress_strain compression_positive) IndexError.
Proof.
  unfold uniaxial_material_analysis, ops.
  do 15 (apply raises_after; [apply returns_call; exact Hh | intros _]).
  apply raises_at. cbn [getitem nth_error lift]. apply raises_throw.
Qed.

(** With two peaks or more, the error of the plan of the first interval is
    the error of the function. *)
Lemma first_interval_raises (definition : list pyval) (p0 p1 : float)
    (rest : list float) (rate_type : string) (rate_value : pyval)
    (matTag : Z) (plot_stress_strain compression_positive : bool) (e : exn) :
  interval_plan (p0 :: p1 :: rest) rate_type rate_value 0 = Raise e ->
  raises h (uniaxial_material_analysis definition (p0 :: p1 :: rest)
              rate_type rate_value matTag plot_stress_strain
              compression_positive) e.
Proof.
  intros Hplan. unfold uniaxial_material_analysis, ops.
  do 15 (apply raises_after; [apply returns_call; exact Hh | intros _]).
  apply raises_after; [apply (returns_lift h _ p0); reflexivity | intros q0].
  do 3 (apply raises_after; [apply returns_call; exact Hh | intros _]).
  apply raises_after; [apply returns_measure; exact Hh | intros r0].
  apply raises_at. cbn [List.length Nat.sub seq for_each].
  apply raises_at. rewrite peak_body_plan, Hplan. apply raises_throw.
Qed.

(** X12. A rate type that is none of 'None', 'StrainRate' and 'Steps' is
    reported, by an Exception, only when there are two peak points or more;
    with a single peak point the loop over the intervals is empty and the
    function returns, whatever the rate type and the rate value. *)
Theorem unknown_rate_type (definition : list pyval) (rate_type : string)
    (rate_value : pyval) (matTag : Z)
    (plot_stress_strain compression_positive : bool) :
  rate_type <> "None"%string ->
  rate_type <> "StrainRate"%string ->
  rate_type <> "Steps"%string ->
  (forall p0 p1 rest,
      raises h (uniaxial_material_analysis definition (p0 :: p1 :: rest)
                  rate_type rate_value matTag plot_stress_strain
                  compression_positive)
        (Exception [Text "Unknown rate_type: "; Text rate_type]))
  /\ (forall p0,
        returns h (uniaxial_material_analysis definition [p0] rate_type
                     rate_value matTag plot_stress_strain
                     compression_positive)).
Proof.
  intros H1 H2 H3. split.
  - intros p0 p1 rest. apply first_interval_raises.
    unfold interval_plan, num_steps_of.
    apply String.eqb_neq in H1. apply String.eqb_neq in H2.
    apply String.eqb_neq in H3. rewrite H1, H2, H3. reflexivity.
  - intros p0. unfold uniaxial_material_analysis, ops.
    do 15 (apply returns_bind; [apply returns_call; exact Hh | intros _]).
    apply returns_bind; [apply (returns_lift h _ p0); reflexivity | intros q0].
    do 3 (apply returns_bind; [apply returns_call; exact Hh | intros _]).
    apply returns_bind; [apply returns_measure; exact Hh | intros r0].
    cbn [List.length Nat.sub seq for_each bind].
    apply returns_bind; [| intros _; apply returns_ret].
    destruct plot_stress_strain; [| apply returns_ret].
    unfold plot, plt.
    do 4 (apply returns_bind; [apply returns_call; exact Hh | intros _]).
    apply returns_call. exact Hh.
Qed.








End Errors.

Lemma idle_engine_answers : Uniaxial.answers_all Uniaxial.idle_engine.
Proof.
  intros X ev s. destruct ev; eexists; eexists; reflexivity.
Qed.

Lemma no_peak_raises_witness :
  Uniaxial.answers_all Uniaxial.idle_engine
  /\ Uniaxial.raises Uniaxial.idle_engine
       (Uniaxial.uniaxial_material_analysis
          [Uniaxial.VStr "Elastic"; Uniaxial.VInt 1; Uniaxial.VFloat 29000]
          [] "None" Uniaxial.VNone 1 false false) IndexError.
Proof.
  split; [exact idle_engine_answers |].
  apply (no_peak_raises Uniaxial.idle_engine idle_engine_answers).
Defined.

Lemma unknown_rate_type_witness :
  Uniaxial.answers_all Uniaxial.idle_engine
  /\ ("Step" <> "None" /\ "Step" <> "StrainRate" /\ "Step" <> "Steps")%string
  /\ (forall p0 p1 rest,
        Uniaxial.raises Uniaxial.idle_engine
          (Uniaxial.uniaxial_material_analysis [] (p0 :: p1 :: rest)
             "Step" (Uniaxial.VInt 2) 1 false false)
          (Exception [Text "Unknown rate_type: "; Text "Step"]))
  /\ (forall p0,
        Uniaxial.returns Uniaxial.idle_engine
          (Uniaxial.uniaxial_material_analysis [] [p0]
             "Step" (Uniaxial.VInt 2) 1 false false)).
Proof.
  split; [exact idle_engine_answers |].
  split; [repeat split; discriminate |].
  apply (unknown_rate_type Uniaxial.idle_engine idle_engine_answers
           [] "Step" (Uniaxial.VInt 2) 1 false false); discriminate.
Defined.



Lemma driver_returns_witness :
  Uniaxial.answers_all Uniaxial.idle_engine
  /\ [0; 0.5; 1]%float <> []
  /\ Uniaxial.float_of_int 2 = Ok 2%float
  /\ (2 =? 0)%float = false
  /\ Uniaxial.returns Uniaxial.idle_engine
       (Uniaxial.uniaxial_material_analysis
          [Uniaxial.VStr "Elastic"; Uniaxial.VInt 1; Uniaxial.VFloat 29000]
          [0; 0.5; 1]%float "Steps" (Uniaxial.VInt 2) 1 false false).
Proof.
  split; [exact idle_engine_answers |].
  split; [discriminate |]. split; [reflexivity |]. split; [reflexivity |].
  apply (driver_returns Uniaxial.idle_engine idle_engine_answers
           [Uniaxial.VStr "Elastic"; Uniaxial.VInt 1; Uniaxial.VFloat 29000]
           [0; 0.5; 1]%float "Steps" (Uniaxial.VInt 2) 1 false false
           2%Z 2%float).
  - discriminate.
  - right. split; reflexivity.
  - reflexivity.
  - reflexivity.
Defined.
